(** * simdltk.module.activation: incremental multi-head attention

    A shallow embedding of [MultiheadAttention] (src/simdltk/module/activation.py):
    the constructor, the dispatching [forward], and the incremental
    [_recurrent_forward] with its decoding-state dictionaries.

    Tensors are a shape with row-major data; the numeric kernels of the
    tensor library are written out over an abstract scalar type.  Python
    dictionaries live in a store of objects addressed by references, so that
    aliasing between [prev_state] and the returned state is visible. *)

From Stdlib Require Import ZArith List Lia Bool String Arith.
From stdpp Require Import base option gmap strings list fin_maps.

Local Open Scope string_scope.
Local Open Scope nat_scope.
Local Open Scope list_scope.

(** ** Exceptions and fallible results *)

Inductive exn : Type :=
| AssertionError (msg : string)
| ZeroDivisionError
| NotImplementedError
| TypeError
| ValueError
| IndexError
| AttributeError      (* a method called on [None] or on a non-dictionary *)
| ShapeError          (* a RuntimeError raised inside a tensor kernel *)
| RuntimeError.       (* the bare [raise RuntimeError()] of the source *)

Inductive result (A : Type) : Type :=
| Ok (a : A)
| Raise (e : exn).
Arguments Ok {A} a.
Arguments Raise {A} e.

Definition is_ok {A} (r : result A) : bool :=
  match r with Ok _ => true | Raise _ => false end.

Definition raises {A} (r : result A) : Prop :=
  exists e, r = Raise e.

#[export] Instance result_ret : MRet result := fun A a => Ok a.
#[export] Instance result_bind : MBind result := fun A B f r =>
  match r with Ok a => f a | Raise e => Raise e end.

Definition assert (b : bool) (msg : string) : result unit :=
  if b then Ok tt else Raise (AssertionError msg).

Definition guard_shape (b : bool) : result unit :=
  if b then Ok tt else Raise ShapeError.

(** ** Scalars

    The element type of tensors.  [s_neg_inf] is [float('-inf')],
    [s_rsqrt n] is [n ** -0.5], [s_truthy x] is [x != 0] (the conversion
    done by [.to(torch.bool)]), [s_is_prob p] is [0 <= p <= 1]. *)

Class Scalar (T : Type) := {
  s_zero : T;
  s_add : T -> T -> T;
  s_mul : T -> T -> T;
  s_div : T -> T -> T;
  s_exp : T -> T;
  s_neg_inf : T;
  s_of_Z : Z -> T;
  s_rsqrt : Z -> T;
  s_truthy : T -> bool;
  s_is_prob : T -> bool
}.

(** ** Shapes and row-major indexing *)

Definition numel (sh : list nat) : nat := fold_right Nat.mul 1 sh.

Fixpoint ravel (sh idx : list nat) : nat :=
  match sh, idx with
  | _ :: sh', i :: idx' => i * numel sh' + ravel sh' idx'
  | _, _ => 0
  end.

Fixpoint unravel (sh : list nat) (o : nat) : list nat :=
  match sh with
  | [] => []
  | _ :: sh' => (o / numel sh') :: unravel sh' (o mod numel sh')
  end.

(** [idx] is a valid multi-index of shape [sh]. *)
Definition in_bounds (idx sh : list nat) : Prop := Forall2 lt idx sh.

Section Tensor.
Context {T : Type} `{Scalar T}.

Record tensor : Type := mkTensor { shape : list nat; data : list T }.

Definition wf (t : tensor) : Prop := length (data t) = numel (shape t).

Definition get (t : tensor) (idx : list nat) : T :=
    nth (ravel (shape t) idx) (data t) s_zero.

Definition build (sh : list nat) (f : list nat -> T) : tensor :=
    mkTensor sh (map (fun o => f (unravel sh o)) (seq 0 (numel sh))).

Definition tmap (f : T -> T) (t : tensor) : tensor :=
    mkTensor (shape t) (map f (data t)).

Definition sum_upto (n : nat) (f : nat -> T) : T :=
    fold_right (fun l acc => s_add (f l) acc) s_zero (seq 0 n).

End Tensor.
Arguments tensor T : clear implicits.

(** ** Tensor kernels

    The primitives of the tensor library that the module calls.  Every
    kernel checks shapes the way the library does and raises otherwise. *)

Definition swap_at {A} (i j : nat) (l : list A) : list A :=
  match l !! i, l !! j with
  | Some x, Some y => <[i := y]> (<[j := x]> l)
  | _, _ => l
  end.

(** Shape of [a + b] under broadcasting, computed on reversed shapes. *)
Fixpoint bshape_rev (a b : list nat) : option (list nat) :=
  match a, b with
  | [], _ => Some b
  | _, [] => Some a
  | x :: a', y :: b' =>
      match bshape_rev a' b' with
      | Some r =>
          if decide (x = y) then Some (x :: r)
          else if decide (x = 1) then Some (y :: r)
          else if decide (y = 1) then Some (x :: r)
          else None
      | None => None
      end
  end.

Definition broadcast_shapes (a b : list nat) : option (list nat) :=
  match bshape_rev (rev a) (rev b) with
  | Some r => Some (rev r)
  | None => None
  end.

(** Index into an operand of shape [s] for index [idx] of the broadcast result. *)
Definition bindex (s idx : list nat) : list nat :=
  zip_with (fun d i => if decide (d = 1) then 0 else i) s
           (skipn (length idx - length s) idx).

Fixpoint count_infer (dims : list Z) : nat :=
  match dims with
  | [] => 0
  | d :: ds => (if decide (d = (-1)%Z) then 1 else 0) + count_infer ds
  end.

Fixpoint known_numel (dims : list Z) : nat :=
  match dims with
  | [] => 1
  | d :: ds => (if decide (d = (-1)%Z) then 1 else Z.to_nat d) * known_numel ds
  end.

Section Kernels.
Context {T : Type} `{Scalar T}.

  (** [a, b, c = t.size()] *)
Definition size3 (t : tensor T) : result (nat * nat * nat) :=
    match shape t with
    | [a; b; c] => Ok (a, b, c)
    | _ => Raise ValueError
    end.

  (** [t.size(d)] *)
Definition size_at (t : tensor T) (d : nat) : result nat :=
    match shape t !! d with
    | Some n => Ok n
    | None => Raise IndexError
    end.

  (** [t.contiguous()]: a copy in row-major order; values are unchanged. *)
Definition contiguous (t : tensor T) : tensor T := t.

  (** [t.view(d1, ..., dk)] with at most one [-1]. *)
Definition view (t : tensor T) (dims : list Z) : result (tensor T) :=
    let n := numel (shape t) in
    let p := known_numel dims in
    if forallb (fun d => (-1 <=? d)%Z) dims then
      match count_infer dims with
      | 0 => if decide (p = n)
             then Ok (mkTensor (map Z.to_nat dims) (data t))
             else Raise ShapeError
      | 1 => if decide (0 < p ∧ n mod p = 0)
             then Ok (mkTensor
                        (map (fun d => if decide (d = (-1)%Z) then n / p else Z.to_nat d) dims)
                        (data t))
             else Raise ShapeError
      | _ => Raise ShapeError
      end
    else Raise ShapeError.

  (** [t.transpose(d0, d1)] *)
Definition transpose (t : tensor T) (d0 d1 : nat) : result (tensor T) :=
    if decide (d0 < length (shape t) ∧ d1 < length (shape t)) then
      Ok (build (swap_at d0 d1 (shape t)) (fun idx => get t (swap_at d0 d1 idx)))
    else Raise IndexError.

  (** [t.unsqueeze(d)] *)
Definition unsqueeze (t : tensor T) (d : nat) : result (tensor T) :=
    if decide (d <= length (shape t)) then
      Ok (mkTensor (take d (shape t) ++ 1 :: drop d (shape t)) (data t))
    else Raise IndexError.

  (** [t * c] for a Python number [c] *)
Definition mul_scalar (t : tensor T) (c : T) : tensor T :=
    tmap (fun x => s_mul x c) t.

Definition dim_size (t : tensor T) (dim : nat) : nat :=
    default 0 (shape t !! dim).

Fixpoint cat_get (ts : list (tensor T)) (dim : nat) (idx : list nat) (i : nat) : T :=
    match ts with
    | [] => s_zero
    | t :: ts' =>
        if decide (i < dim_size t dim) then get t (<[dim := i]> idx)
        else cat_get ts' dim idx (i - dim_size t dim)
    end.

  (** [torch.cat(ts, dim=dim)] *)
Definition torch_cat (ts : list (tensor T)) (dim : nat) : result (tensor T) :=
    match ts with
    | [] => Raise ValueError
    | t0 :: _ =>
        if decide (dim < length (shape t0)) then
          if forallb (fun t => bool_decide (<[dim := 0]> (shape t) = <[dim := 0]> (shape t0))) ts
          then Ok (build (<[dim := sum_list (map (fun t => dim_size t dim) ts)]> (shape t0))
                         (fun idx => cat_get ts dim idx (default 0 (idx !! dim))))
          else Raise ShapeError
        else Raise IndexError
    end.

  (** [torch.bmm(a, b)] *)
Definition bmm (a b : tensor T) : result (tensor T) :=
    match shape a, shape b with
    | [n; m; p], [n'; p'; q] =>
        if decide (n = n' ∧ p = p') then
          Ok (build [n; m; q]
                (fun idx => match idx with
                            | [i; j; k] =>
                                sum_upto p (fun l => s_mul (get a [i; j; l]) (get b [i; l; k]))
                            | _ => s_zero
                            end))
        else Raise ShapeError
    | _, _ => Raise ShapeError
    end.

Definition bias_fits (b : option (tensor T)) (out : nat) : bool :=
    match b with
    | Some bt => bool_decide (shape bt = [out])
    | None => true
    end.

  (** [F.linear(x, w, b)]: [x @ w.T + b] on the last dimension. *)
Definition F_linear (x w : tensor T) (b : option (tensor T)) : result (tensor T) :=
    match shape w, last (shape x) with
    | [out; inn], Some xin =>
        if bool_decide (xin = inn) && bias_fits b out then
          Ok (build (removelast (shape x) ++ [out])
                (fun idx =>
                   let o := default 0 (last idx) in
                   let dot := sum_upto inn
                                (fun l => s_mul (get x (removelast idx ++ [l])) (get w [o; l])) in
                   match b with
                   | Some bt => s_add dot (get bt [o])
                   | None => dot
                   end))
        else Raise ShapeError
    | _, _ => Raise ShapeError
    end.

  (** [a + b] with broadcasting *)
Definition add_broadcast (a b : tensor T) : result (tensor T) :=
    match broadcast_shapes (shape a) (shape b) with
    | Some sh =>
        Ok (build sh (fun idx => s_add (get a (bindex (shape a) idx))
                                       (get b (bindex (shape b) idx))))
    | None => Raise ShapeError
    end.

  (** [t.masked_fill(mask.to(torch.bool), c)]: the mask broadcasts to [t]. *)
Definition masked_fill (t mask : tensor T) (c : T) : result (tensor T) :=
    if decide (broadcast_shapes (shape t) (shape mask) = Some (shape t)) then
      Ok (build (shape t)
            (fun idx => if s_truthy (get mask (bindex (shape mask) idx)) then c
                        else get t idx))
    else Raise ShapeError.

  (** [F.softmax(t, dim=-1)] *)
Definition softmax_last (t : tensor T) : tensor T :=
    let n := default 1 (last (shape t)) in
    build (shape t)
      (fun idx =>
         s_div (s_exp (get t idx))
               (sum_upto n (fun l => s_exp (get t (removelast idx ++ [l]))))).

  (** [torch.chunk(t, 3, dim=0)] unpacked into three names. *)
Definition chunk3 (t : tensor T) : result (tensor T * tensor T * tensor T) :=
    match shape t with
    | [] => Raise IndexError
    | n :: rest =>
        let c := (n + 2) / 3 in
        let piece (k : nat) : tensor T :=
          build (Nat.min c (n - k * c) :: rest)
                (fun idx => match idx with
                            | i :: idx' => get t ((k * c + i) :: idx')
                            | [] => s_zero
                            end) in
        if decide (n = 0 ∨ 2 * c < n)
        then Ok (piece 0, piece 1, piece 2)
        else Raise ValueError
    end.

End Kernels.

(** ** More library kernels, used by the non-incremental path *)

Section MoreKernels.
Context {T : Type} `{Scalar T}.

  (** [torch.zeros(sh)] *)
Definition torch_zeros (sh : list nat) : tensor T := build sh (fun _ => s_zero).

  (** [t\[start:stop\]] on dimension 0 (or [t\[start:stop, :\]]). *)
Definition slice0 (t : tensor T) (start stop : nat) : result (tensor T) :=
    match shape t with
    | [] => Raise IndexError
    | n :: rest =>
        Ok (build ((Nat.min stop n - Nat.min start n) :: rest)
              (fun idx => match idx with
                          | i :: idx' => get t ((start + i) :: idx')
                          | [] => s_zero
                          end))
    end.

  (** [t.repeat(1, k, 1)] for a three-dimensional [t]. *)
Definition repeat_dim1 (t : tensor T) (k : nat) : result (tensor T) :=
    match shape t with
    | [a; b; c] =>
        Ok (build [a; k * b; c]
              (fun idx => match idx with
                          | [i; j; l] => get t [i; j mod b; l]
                          | _ => s_zero
                          end))
    | _ => Raise ShapeError
    end.

  (** [t.sum(dim=1) / c] for a four-dimensional [t]. *)
Definition sum_dim1_div (t : tensor T) (c : T) : result (tensor T) :=
    match shape t with
    | [a; b; m; n] =>
        Ok (build [a; m; n]
              (fun idx => match idx with
                          | [i; j; l] => s_div (sum_upto b (fun h => get t [i; h; j; l])) c
                          | _ => s_zero
                          end))
    | _ => Raise IndexError
    end.

End MoreKernels.

(** ** The object store

    Decoding states are Python dictionaries from strings to tensors.  A
    dictionary is an object in the store; callers hold references.  The
    store also keeps the log of the linear projections that the module
    has evaluated, newest last. *)

Definition ref := nat.

Inductive projection : Type :=
| ProjQuery | ProjKey | ProjValue | ProjOut.

#[export] Instance projection_eq_dec : EqDecision projection.
Proof. solve_decision. Defined.

Section Store.
Context {T : Type}.

Record store : Type := mkStore {
    objects : list (gmap string (tensor T));
    linear_calls : list projection
  }.

Definition M (A : Type) : Type := store -> store * result A.

Definition M_ret {A} (a : A) : M A := fun st => (st, Ok a).

Definition M_bind {A B} (f : A -> M B) (c : M A) : M B :=
    fun st => match c st with
              | (st', Ok a) => f a st'
              | (st', Raise e) => (st', Raise e)
              end.

  (** Run a store-free computation. *)
Definition pure {A} (r : result A) : M A := fun st => (st, r).

Definition raise {A} (e : exn) : M A := fun st => (st, Raise e).

  (** Record that projection [p] is being evaluated. *)
Definition log_linear (p : projection) : M unit :=
    fun st => (mkStore (objects st) (linear_calls st ++ [p]), Ok tt).

  (** [{}] *)
Definition new_dict : M ref :=
    fun st => (mkStore (objects st ++ [∅]) (linear_calls st), Ok (length (objects st))).

  (** [d.get(k, None)] *)
Definition dict_get (d : ref) (k : string) : M (option (tensor T)) :=
    fun st => match objects st !! d with
              | Some m => (st, Ok (m !! k))
              | None => (st, Raise AttributeError)
              end.

  (** [d\[k\] = v] *)
Definition dict_set (d : ref) (k : string) (v : tensor T) : M unit :=
    fun st => match objects st !! d with
              | Some m => (mkStore (<[d := <[k := v]> m]> (objects st)) (linear_calls st), Ok tt)
              | None => (st, Raise AttributeError)
              end.

End Store.
Arguments store T : clear implicits.
Arguments M T A : clear implicits.

#[export] Instance M_mret {T} : MRet (M T) := fun A a => M_ret a.
#[export] Instance M_mbind {T} : MBind (M T) := fun A B f c => M_bind f c.

(** ** The module *)

Section Module.
Context {T : Type} `{Scalar T}.

Record MultiheadAttention : Type := {
    embed_dim : Z;
    kdim : Z;
    vdim : Z;
    _qkv_same_embed_dim : bool;
    num_heads : Z;
    dropout : T;
    head_dim : Z;
    scaling : T;
    q_proj_weight : option (tensor T);
    k_proj_weight : option (tensor T);
    v_proj_weight : option (tensor T);
    in_proj_weight : option (tensor T);
    in_proj_bias : option (tensor T);
    out_proj_weight : tensor T;
    out_proj_bias : option (tensor T);
    bias_k : option (tensor T);
    bias_v : option (tensor T);
    add_zero_attn : bool;
    training : bool
  }.

  (** [torch.empty(d1, ..., dk)]: the shape, or an error on a negative size. *)
Definition torch_empty (dims : list Z) : result (list nat) :=
    if forallb (fun d => (0 <=? d)%Z) dims then Ok (map Z.to_nat dims)
    else Raise ShapeError.

  (** [a // b] on Python integers. *)
Definition floordiv (a b : Z) : result Z :=
    if decide (b = 0%Z) then Raise ZeroDivisionError else Ok (a / b)%Z.

  (** [n ** -0.5] on a Python integer. *)
Definition pow_neg_half (n : Z) : result T :=
    if decide (n = 0%Z) then Raise ZeroDivisionError else Ok (s_rsqrt n).

  (** [MultiheadAttention.__init__].  [rng name] supplies the values drawn
      by the initialisers for the parameter called [name]. *)
Definition __init__ (rng : string -> list nat -> T)
      (embed_dim_ num_heads_ : Z) (dropout_ : T) (bias add_bias_kv add_zero_attn_ : bool)
      (kdim_ vdim_ : option Z) : result MultiheadAttention :=
    let kdim' := default embed_dim_ kdim_ in
    let vdim' := default embed_dim_ vdim_ in
    let same := bool_decide (kdim' = embed_dim_) && bool_decide (vdim' = embed_dim_) in
    head_dim' ← floordiv embed_dim_ num_heads_;
    scaling' ← pow_neg_half head_dim';
    _ ← assert (bool_decide ((head_dim' * num_heads_)%Z = embed_dim_))
               "embed_dim must be divisible by num_heads";
    _ ← assert same "_qkv_same_embed_dim is False";
    '(qw, kw, vw, inw) ←
       (if negb same then
          qs ← torch_empty [embed_dim_; embed_dim_];
          ks ← torch_empty [embed_dim_; kdim'];
          vs ← torch_empty [embed_dim_; vdim'];
          Ok (Some (build qs (rng "q_proj_weight")),
              Some (build ks (rng "k_proj_weight")),
              Some (build vs (rng "v_proj_weight")), None)
        else
          ws ← torch_empty [(3 * embed_dim_)%Z; embed_dim_];
          Ok (None, None, None, Some (build ws (rng "in_proj_weight"))));
    inb ← (if bias then
             bs ← torch_empty [(3 * embed_dim_)%Z];
             Ok (Some (torch_zeros bs))
           else Ok None);
    ows ← torch_empty [embed_dim_; embed_dim_];
    ob ← (if bias then
            bs ← torch_empty [embed_dim_];
            Ok (Some (torch_zeros bs))
          else Ok None);
    '(bk, bv) ←
       (if add_bias_kv then
          bs ← torch_empty [1; 1; embed_dim_]%Z;
          Ok (Some (build bs (rng "bias_k")), Some (build bs (rng "bias_v")))
        else Ok (None, None));
    _ ← assert (negb add_zero_attn_) "add_zero_attn is not supported";
    Ok {| embed_dim := embed_dim_; kdim := kdim'; vdim := vdim';
          _qkv_same_embed_dim := same;
          num_heads := num_heads_; dropout := dropout_;
          head_dim := head_dim'; scaling := scaling';
          q_proj_weight := qw; k_proj_weight := kw; v_proj_weight := vw;
          in_proj_weight := inw; in_proj_bias := inb;
          out_proj_weight := build ows (rng "out_proj.weight");
          out_proj_bias := ob;
          bias_k := bk; bias_v := bv;
          add_zero_attn := add_zero_attn_;
          training := true |}.

  (** [F.dropout(x, p, training)].  [noise] is the rescaled Bernoulli mask
      drawn by the random generator for this call. *)
Definition F_dropout (noise : list nat -> T) (x : tensor T) (p : T) (training_ : bool)
    : result (tensor T) :=
    if s_is_prob p then
      if training_ && s_truthy p
      then Ok (build (shape x) (fun idx => s_mul (get x idx) (noise idx)))
      else Ok x
    else Raise ValueError.

  (** A method called on a value that may be [None]. *)
Definition not_none {A} (o : option A) : result A :=
    match o with Some a => Ok a | None => Raise AttributeError end.

  (** A tensor argument of a library function that may not be [None]. *)
Definition tensor_arg {A} (o : option A) : result A :=
    match o with Some a => Ok a | None => Raise TypeError end.

End Module.
Arguments MultiheadAttention T : clear implicits.

Section Forward.
Context {T : Type} `{Scalar T}.

Definition zdim (n : nat) : Z := Z.of_nat n.

  (** [self.out_proj(x)] *)
Definition out_proj (self : MultiheadAttention T) (x : tensor T) : result (tensor T) :=
    F_linear x (out_proj_weight self) (out_proj_bias self).

  (** [MultiheadAttention._recurrent_forward].  Returns the attention
      output, the masked scores, and the reference of the new state. *)
Definition _recurrent_forward (self : MultiheadAttention T) (noise : list nat -> T)
      (query key value : tensor T) (key_padding_mask attn_mask : option (tensor T))
      (static_kv : bool) (prev_state : ref) : M T (tensor T * tensor T * ref) :=
    '(tgt_len, bsz, _) ← pure (size3 query);
    src_len ← pure (size_at key 0);
    static_key ← dict_get prev_state "static_key";
    static_value ← dict_get prev_state "static_value";
    prev_key ← dict_get prev_state "prev_key";
    prev_value ← dict_get prev_state "prev_value";
    prev_key_padding_mask ← dict_get prev_state "prev_key_padding_mask";
    new_state ← new_dict;
    let bh := (zdim bsz * num_heads self)%Z in
    '(query, key, value) ←
       (if _qkv_same_embed_dim self then
          '(q_proj_weight, k_proj_weight, v_proj_weight) ←
             pure (tensor_arg (in_proj_weight self) ≫= chunk3);
          '(q_proj_bias, k_proj_bias, v_proj_bias) ←
             pure (tensor_arg (in_proj_bias self) ≫= chunk3);
          _ ← log_linear ProjQuery;
          query ← pure (F_linear query q_proj_weight (Some q_proj_bias));
          let project_kv : M T (tensor T * tensor T * tensor T) :=
            _ ← log_linear ProjKey;
            key ← pure (F_linear key k_proj_weight (Some k_proj_bias));
            _ ← log_linear ProjValue;
            value ← pure (F_linear value v_proj_weight (Some v_proj_bias));
            mret (query, key, value) in
          if static_kv then
            match static_key with
            | None => project_kv
            | Some _ => mret (query, key, value)
            end
          else project_kv
        else raise NotImplementedError);
    let query := mul_scalar query (scaling self) in
    query ← pure (view (contiguous query) [(-1)%Z; bh; head_dim self]
                  ≫= fun t => transpose t 0 1);
    '(key, value, src_len) ←
       (match static_kv, static_key with
        | true, Some static_key =>
            key ← pure (view (contiguous static_key) [bh; (-1)%Z; head_dim self]);
            value ← pure (not_none static_value ≫= fun sv =>
                          view (contiguous sv) [bh; (-1)%Z; head_dim self]);
            mret (key, value, src_len)
        | _, _ =>
            key ← pure (view (contiguous key) [(-1)%Z; bh; head_dim self]
                        ≫= fun t => transpose t 0 1);
            value ← pure (view (contiguous value) [(-1)%Z; bh; head_dim self]
                          ≫= fun t => transpose t 0 1);
            if static_kv then
              sk ← pure (view (contiguous key)
                           [zdim bsz; num_heads self; (-1)%Z; head_dim self]);
              _ ← dict_set new_state "static_key" sk;
              sv ← pure (view (contiguous value)
                           [zdim bsz; num_heads self; (-1)%Z; head_dim self]);
              _ ← dict_set new_state "static_value" sv;
              mret (key, value, src_len)
            else
              '(key, value, src_len) ←
                 (match prev_key with
                  | Some prev_key =>
                      pk ← pure (view (contiguous prev_key) [bh; (-1)%Z; head_dim self]);
                      key ← pure (torch_cat [pk; key] 1);
                      pv ← pure (not_none prev_value ≫= fun pv =>
                                 view (contiguous pv) [bh; (-1)%Z; head_dim self]);
                      value ← pure (torch_cat [pv; value] 1);
                      src_len ← pure (size_at key 1);
                      mret (key, value, src_len)
                  | None => mret (key, value, src_len)
                  end);
              nk ← pure (view (contiguous key)
                           [zdim bsz; num_heads self; (-1)%Z; head_dim self]);
              _ ← dict_set new_state "prev_key" nk;
              nv ← pure (view (contiguous value)
                           [zdim bsz; num_heads self; (-1)%Z; head_dim self]);
              _ ← dict_set new_state "prev_value" nv;
              mret (key, value, src_len)
        end);
    attn_weights ← pure (transpose key 1 2 ≫= bmm query);
    attn_weights ←
      (match attn_mask with
       | Some attn_mask =>
           pure (unsqueeze attn_mask 0 ≫= add_broadcast attn_weights)
       | None => mret attn_weights
       end);
    attn_weights ←
      (match key_padding_mask with
       | Some key_padding_mask =>
           key_padding_mask ←
             (if negb static_kv then
                key_padding_mask ←
                  (match prev_key_padding_mask with
                   | Some prev_key_padding_mask =>
                       pure (torch_cat [prev_key_padding_mask; key_padding_mask] 1)
                   | None => mret key_padding_mask
                   end);
                _ ← dict_set new_state "prev_key_padding_mask" key_padding_mask;
                mret key_padding_mask
              else mret key_padding_mask);
           pure (
             w ← view attn_weights [zdim bsz; num_heads self; zdim tgt_len; zdim src_len];
             mask ← unsqueeze key_padding_mask 1 ≫= fun t => unsqueeze t 2;
             w ← masked_fill w mask s_neg_inf;
             view w [bh; zdim tgt_len; zdim src_len])
       | None => mret attn_weights
       end);
    let attn_probs := softmax_last attn_weights in
    attn_probs ← pure (F_dropout noise attn_probs (dropout self) (training self));
    if decide (1 < tgt_len) then raise RuntimeError
    else
      attn ← pure (
        a ← bmm attn_probs value;
        a ← transpose a 0 1;
        view (contiguous a) [zdim tgt_len; zdim bsz; embed_dim self]);
      _ ← log_linear ProjOut;
      attn ← pure (out_proj self attn);
      mret (attn, attn_weights, new_state).

End Forward.

(** ** The non-incremental path

    [F.multi_head_attention_forward] of the tensor library, for the packed
    projection weights: project with the three slices of the packed
    weights, scale the query, split heads, scaled dot product, additive
    mask, padding mask, softmax, dropout, weighted sum, output projection. *)

Section Baseline.
Context {T : Type} `{Scalar T}.

Inductive forward_result : Type :=
  | Plain (attn_output attn_output_weights : tensor T)
  | Incremental (attn attn_weights : tensor T) (new_state : ref).

  (** [t\[start:\]] *)
Definition slice0_from (t : tensor T) (start : nat) : result (tensor T) :=
    slice0 t start (dim_size t 0).

  (** A slice of a bias that may be [None]. *)
Definition opt_slice (sl : tensor T -> result (tensor T)) (b : option (tensor T))
    : result (option (tensor T)) :=
    match b with
    | Some bt => t ← sl bt; Ok (Some t)
    | None => Ok None
    end.

Definition F_multi_head_attention_forward (noise : list nat -> T)
      (query key value : tensor T) (embed_dim_to_check num_heads_ : Z)
      (in_proj_weight_ in_proj_bias_ bias_k_ bias_v_ : option (tensor T))
      (add_zero_attn_ : bool) (dropout_p : T)
      (out_proj_weight_ : tensor T) (out_proj_bias_ : option (tensor T))
      (training_ : bool) (key_padding_mask attn_mask : option (tensor T))
      (use_separate_proj_weight : bool)
      (q_proj_weight_ k_proj_weight_ v_proj_weight_ : option (tensor T))
    : result (tensor T * tensor T) :=
    '(tgt_len, bsz, embed_dim_) ← size3 query;
    _ ← assert (bool_decide (zdim embed_dim_ = embed_dim_to_check)) EmptyString;
    _ ← assert (bool_decide (shape key = shape value)) EmptyString;
    head_dim_ ← floordiv (zdim embed_dim_) num_heads_;
    _ ← assert (bool_decide ((head_dim_ * num_heads_)%Z = zdim embed_dim_))
               "embed_dim must be divisible by num_heads";
    scaling_ ← pow_neg_half head_dim_;
    qb ← opt_slice (fun b => slice0 b 0 embed_dim_) in_proj_bias_;
    kb ← opt_slice (fun b => slice0 b embed_dim_ (2 * embed_dim_)) in_proj_bias_;
    vb ← opt_slice (fun b => slice0_from b (2 * embed_dim_)) in_proj_bias_;
    '(qw, kw, vw) ←
       (if use_separate_proj_weight then
          qw ← tensor_arg q_proj_weight_;
          _ ← assert (bool_decide (Some (shape qw) = l ← last (shape query); Some [embed_dim_; l]))
                     EmptyString;
          kw ← tensor_arg k_proj_weight_;
          _ ← assert (bool_decide (Some (shape kw) = l ← last (shape key); Some [embed_dim_; l]))
                     EmptyString;
          vw ← tensor_arg v_proj_weight_;
          _ ← assert (bool_decide (Some (shape vw) = l ← last (shape value); Some [embed_dim_; l]))
                     EmptyString;
          Ok (qw, kw, vw)
        else
          w ← tensor_arg in_proj_weight_;
          qw ← slice0 w 0 embed_dim_;
          kw ← slice0 w embed_dim_ (2 * embed_dim_);
          vw ← slice0_from w (2 * embed_dim_);
          Ok (qw, kw, vw));
    q ← F_linear query qw qb;
    k ← F_linear key kw kb;
    v ← F_linear value vw vb;
    let q := mul_scalar q scaling_ in
    '(k, v, attn_mask, key_padding_mask) ←
       (match bias_k_, bias_v_ with
        | Some bk, Some bv =>
            bk' ← repeat_dim1 bk bsz;
            k ← torch_cat [k; bk'] 0;
            bv' ← repeat_dim1 bv bsz;
            v ← torch_cat [v; bv'] 0;
            attn_mask ←
              (match attn_mask with
               | Some am =>
                   n ← size_at am 0;
                   am' ← torch_cat [am; torch_zeros [n; 1]] 1;
                   Ok (Some am')
               | None => Ok None
               end);
            key_padding_mask ←
              (match key_padding_mask with
               | Some kpm =>
                   n ← size_at kpm 0;
                   kpm' ← torch_cat [kpm; torch_zeros [n; 1]] 1;
                   Ok (Some kpm')
               | None => Ok None
               end);
            Ok (k, v, attn_mask, key_padding_mask)
        | Some _, None | None, Some _ => Raise (AssertionError EmptyString)
        | None, None => Ok (k, v, attn_mask, key_padding_mask)
        end);
    let bh := (zdim bsz * num_heads_)%Z in
    q ← view (contiguous q) [zdim tgt_len; bh; head_dim_] ≫= fun t => transpose t 0 1;
    k ← view (contiguous k) [(-1)%Z; bh; head_dim_] ≫= fun t => transpose t 0 1;
    v ← view (contiguous v) [(-1)%Z; bh; head_dim_] ≫= fun t => transpose t 0 1;
    src_len ← size_at k 1;
    _ ← (match key_padding_mask with
         | Some kpm =>
             n0 ← size_at kpm 0;
             _ ← assert (bool_decide (n0 = bsz)) EmptyString;
             n1 ← size_at kpm 1;
             assert (bool_decide (n1 = src_len)) EmptyString
         | None => Ok tt
         end);
    '(k, v, src_len, attn_mask, key_padding_mask) ←
       (if add_zero_attn_ then
          let src_len := src_len + 1 in
          k ← torch_cat [k; torch_zeros (take 1 (shape k) ++ 1 :: drop 2 (shape k))] 1;
          v ← torch_cat [v; torch_zeros (take 1 (shape v) ++ 1 :: drop 2 (shape v))] 1;
          attn_mask ←
            (match attn_mask with
             | Some am =>
                 n ← size_at am 0;
                 am' ← torch_cat [am; torch_zeros [n; 1]] 1;
                 Ok (Some am')
             | None => Ok None
             end);
          key_padding_mask ←
            (match key_padding_mask with
             | Some kpm =>
                 n ← size_at kpm 0;
                 kpm' ← torch_cat [kpm; torch_zeros [n; 1]] 1;
                 Ok (Some kpm')
             | None => Ok None
             end);
          Ok (k, v, src_len, attn_mask, key_padding_mask)
        else Ok (k, v, src_len, attn_mask, key_padding_mask));
    attn_output_weights ← transpose k 1 2 ≫= bmm q;
    _ ← assert (bool_decide (map zdim (shape attn_output_weights)
                             = [bh; zdim tgt_len; zdim src_len])) EmptyString;
    attn_output_weights ←
      (match attn_mask with
       | Some am => unsqueeze am 0 ≫= add_broadcast attn_output_weights
       | None => Ok attn_output_weights
       end);
    attn_output_weights ←
      (match key_padding_mask with
       | Some kpm =>
           w ← view attn_output_weights [zdim bsz; num_heads_; zdim tgt_len; zdim src_len];
           mask ← unsqueeze kpm 1 ≫= fun t => unsqueeze t 2;
           w ← masked_fill w mask s_neg_inf;
           view w [bh; zdim tgt_len; zdim src_len]
       | None => Ok attn_output_weights
       end);
    let attn_output_weights := softmax_last attn_output_weights in
    attn_output_weights ← F_dropout noise attn_output_weights dropout_p training_;
    attn_output ← bmm attn_output_weights v;
    attn_output ← transpose attn_output 0 1;
    attn_output ← view (contiguous attn_output) [zdim tgt_len; zdim bsz; zdim embed_dim_];
    attn_output ← F_linear attn_output out_proj_weight_ out_proj_bias_;
    w4 ← view attn_output_weights [zdim bsz; num_heads_; zdim tgt_len; zdim src_len];
    avg ← sum_dim1_div w4 (s_of_Z num_heads_);
    Ok (attn_output, avg).

  (** [MultiheadAttention.forward] *)
Definition forward (self : MultiheadAttention T) (noise : list nat -> T)
      (query key value : tensor T) (key_padding_mask attn_mask : option (tensor T))
      (static_kv : bool) (prev_state : option ref) : M T forward_result :=
    match prev_state with
    | Some prev_state =>
        '(attn, attn_weights, new_state) ←
          _recurrent_forward self noise query key value key_padding_mask attn_mask
                             static_kv prev_state;
        mret (Incremental attn attn_weights new_state)
    | None =>
        '(attn_output, attn_output_weights) ←
          (if negb (_qkv_same_embed_dim self) then
             pure (F_multi_head_attention_forward noise query key value
                     (embed_dim self) (num_heads self)
                     (in_proj_weight self) (in_proj_bias self)
                     (bias_k self) (bias_v self) (add_zero_attn self)
                     (dropout self) (out_proj_weight self) (out_proj_bias self)
                     (training self) key_padding_mask attn_mask
                     true (q_proj_weight self) (k_proj_weight self) (v_proj_weight self))
           else
             pure (F_multi_head_attention_forward noise query key value
                     (embed_dim self) (num_heads self)
                     (in_proj_weight self) (in_proj_bias self)
                     (bias_k self) (bias_v self) (add_zero_attn self)
                     (dropout self) (out_proj_weight self) (out_proj_bias self)
                     (training self) key_padding_mask attn_mask
                     false None None None));
        mret (Plain attn_output attn_output_weights)
    end.

End Baseline.


(** ** One decoding step as a function of the state dictionary

    The same computation as [_recurrent_forward], arranged as a function
    from the dictionary behind [prev_state] to the dictionary it returns,
    the projections it evaluates, and its two tensor results.  It is the
    vocabulary of the statements below; [recurrent_forward_step] relates it
    to the code. *)

Section Step.
Context {T : Type} `{Scalar T}.

Definition bh_dim (self : MultiheadAttention T) (bsz : nat) : Z :=
  (zdim bsz * num_heads self)%Z.

(** [(len, bsz, E)] to [(bsz * heads, len, head_dim)] *)
Definition split_heads (self : MultiheadAttention T) (bsz : nat) (t : tensor T)
  : result (tensor T) :=
  view (contiguous t) [(-1)%Z; bh_dim self bsz; head_dim self] ≫= fun t => transpose t 0 1.

(** [(bsz * heads, len, head_dim)] to the cached [(bsz, heads, len, head_dim)] *)
Definition as_cache (self : MultiheadAttention T) (bsz : nat) (t : tensor T)
  : result (tensor T) :=
  view (contiguous t) [zdim bsz; num_heads self; (-1)%Z; head_dim self].

(** and back *)
Definition of_cache (self : MultiheadAttention T) (bsz : nat) (t : tensor T)
  : result (tensor T) :=
  view (contiguous t) [bh_dim self bsz; (-1)%Z; head_dim self].

(** Only the packed projection weights are implemented. *)
Definition packed_only (self : MultiheadAttention T) : result unit :=
  if _qkv_same_embed_dim self then Ok tt else Raise NotImplementedError.

Definition packed_projections (self : MultiheadAttention T)
  : result ((tensor T * tensor T * tensor T) * (tensor T * tensor T * tensor T)) :=
  ws ← tensor_arg (in_proj_weight self) ≫= chunk3;
  bs ← tensor_arg (in_proj_bias self) ≫= chunk3;
  Ok (ws, bs).

(** The part after key and value are resolved: scores, masks, softmax,
    dropout, weighted sum, output projection.  [padding] computes the
    padding mask to apply; it is evaluated where the source resolves it,
    after the additive mask.  The mask applied is returned with the two
    tensor results. *)
Definition attention_core (self : MultiheadAttention T) (noise : list nat -> T)
    (tgt_len bsz src_len : nat) (query key value : tensor T)
    (attn_mask : option (tensor T)) (padding : result (option (tensor T)))
  : result (tensor T * tensor T * option (tensor T)) :=
  attn_weights ← transpose key 1 2 ≫= bmm query;
  attn_weights ←
    (match attn_mask with
     | Some attn_mask => unsqueeze attn_mask 0 ≫= add_broadcast attn_weights
     | None => Ok attn_weights
     end);
  mask ← padding;
  attn_weights ←
    (match mask with
     | Some key_padding_mask =>
         w ← view attn_weights [zdim bsz; num_heads self; zdim tgt_len; zdim src_len];
         mask ← unsqueeze key_padding_mask 1 ≫= fun t => unsqueeze t 2;
         w ← masked_fill w mask s_neg_inf;
         view w [bh_dim self bsz; zdim tgt_len; zdim src_len]
     | None => Ok attn_weights
     end);
  attn_probs ← F_dropout noise (softmax_last attn_weights) (dropout self) (training self);
  if decide (1 < tgt_len) then Raise RuntimeError
  else
    a ← bmm attn_probs value;
    a ← transpose a 0 1;
    a ← view (contiguous a) [zdim tgt_len; zdim bsz; embed_dim self];
    attn ← out_proj self a;
    Ok (attn, attn_weights, mask).

(** Static mode with the cache present. *)
Definition static_cached_step (self : MultiheadAttention T) (noise : list nat -> T)
    (query key : tensor T) (key_padding_mask attn_mask : option (tensor T))
    (static_key : tensor T) (static_value : option (tensor T))
  : result (gmap string (tensor T) * list projection * tensor T * tensor T) :=
  '(tgt_len, bsz, _) ← size3 query;
  src_len ← size_at key 0;
  _ ← packed_only self;
  '(qw, _, _, (qb, _, _)) ← packed_projections self;
  q ← F_linear query qw (Some qb);
  q ← split_heads self bsz (mul_scalar q (scaling self));
  k ← of_cache self bsz static_key;
  v ← not_none static_value ≫= of_cache self bsz;
  '(attn, w, _) ← attention_core self noise tgt_len bsz src_len q k v attn_mask
                                 (Ok key_padding_mask);
  Ok (∅, [ProjQuery; ProjOut], attn, w).

(** Static mode on a state without the cache. *)
Definition static_first_step (self : MultiheadAttention T) (noise : list nat -> T)
    (query key value : tensor T) (key_padding_mask attn_mask : option (tensor T))
  : result (gmap string (tensor T) * list projection * tensor T * tensor T) :=
  '(tgt_len, bsz, _) ← size3 query;
  src_len ← size_at key 0;
  _ ← packed_only self;
  '(qw, kw, vw, (qb, kb, vb)) ← packed_projections self;
  q ← F_linear query qw (Some qb);
  k ← F_linear key kw (Some kb);
  v ← F_linear value vw (Some vb);
  q ← split_heads self bsz (mul_scalar q (scaling self));
  k ← split_heads self bsz k;
  v ← split_heads self bsz v;
  sk ← as_cache self bsz k;
  sv ← as_cache self bsz v;
  '(attn, w, _) ← attention_core self noise tgt_len bsz src_len q k v attn_mask
                                 (Ok key_padding_mask);
  Ok (<["static_value" := sv]> (<["static_key" := sk]> ∅),
      [ProjQuery; ProjKey; ProjValue; ProjOut], attn, w).

(** The key or value history extended by the new position. *)
Definition extend_history (self : MultiheadAttention T) (bsz : nat)
    (prev : option (tensor T)) (new : tensor T) : result (tensor T) :=
  match prev with
  | Some p => pv ← of_cache self bsz p; torch_cat [pv; new] 1
  | None => Ok new
  end.

(** The padding mask extended by the mask of the new position. *)
Definition extend_mask (prev : option (tensor T)) (key_padding_mask : option (tensor T))
  : result (option (tensor T)) :=
  match key_padding_mask, prev with
  | Some m, Some pm => t ← torch_cat [pm; m] 1; Ok (Some t)
  | Some m, None => Ok (Some m)
  | None, _ => Ok None
  end.

Definition with_mask (m : option (tensor T)) (d : gmap string (tensor T))
  : gmap string (tensor T) :=
  match m with
  | Some t => <["prev_key_padding_mask" := t]> d
  | None => d
  end.

(** Growing mode. *)
Definition growing_step (self : MultiheadAttention T) (noise : list nat -> T)
    (query key value : tensor T) (key_padding_mask attn_mask : option (tensor T))
    (prev_key prev_value prev_key_padding_mask : option (tensor T))
  : result (gmap string (tensor T) * list projection * tensor T * tensor T) :=
  '(tgt_len, bsz, _) ← size3 query;
  src_len ← size_at key 0;
  _ ← packed_only self;
  '(qw, kw, vw, (qb, kb, vb)) ← packed_projections self;
  q ← F_linear query qw (Some qb);
  k ← F_linear key kw (Some kb);
  v ← F_linear value vw (Some vb);
  q ← split_heads self bsz (mul_scalar q (scaling self));
  k ← split_heads self bsz k;
  v ← split_heads self bsz v;
  k ← extend_history self bsz prev_key k;
  v ← (match prev_key with
       | Some _ => pv ← not_none prev_value; extend_history self bsz (Some pv) v
       | None => Ok v
       end);
  src_len ← (match prev_key with Some _ => size_at k 1 | None => Ok src_len end);
  nk ← as_cache self bsz k;
  nv ← as_cache self bsz v;
  '(attn, w, mask) ← attention_core self noise tgt_len bsz src_len q k v attn_mask
                                    (extend_mask prev_key_padding_mask key_padding_mask);
  Ok (with_mask mask (<["prev_value" := nv]> (<["prev_key" := nk]> ∅)),
      [ProjQuery; ProjKey; ProjValue; ProjOut], attn, w).

Definition step (self : MultiheadAttention T) (noise : list nat -> T)
    (query key value : tensor T) (key_padding_mask attn_mask : option (tensor T))
    (static_kv : bool) (d : gmap string (tensor T))
  : result (gmap string (tensor T) * list projection * tensor T * tensor T) :=
  if static_kv then
    match d !! "static_key" with
    | Some static_key =>
        static_cached_step self noise query key key_padding_mask attn_mask
                           static_key (d !! "static_value")
    | None => static_first_step self noise query key value key_padding_mask attn_mask
    end
  else
    growing_step self noise query key value key_padding_mask attn_mask
                 (d !! "prev_key") (d !! "prev_value") (d !! "prev_key_padding_mask").

End Step.

(** ** Re-initialisation and unpickling *)

Section Reset.
Context {T : Type} `{Scalar T}.

(** Fan-in and fan-out of a parameter, as the initialisers compute them. *)
Definition fans (sh : list nat) : result (nat * nat) :=
  match sh with
  | out :: inn :: rest => Ok (inn * numel rest, out * numel rest)
  | _ => Raise ValueError
  end.

(** [xavier_uniform_(t)] and [xavier_normal_(t)]: [draw] supplies the
    values; the bound or deviation divides by fan-in plus fan-out. *)
Definition xavier_ (draw : list nat -> T) (t : option (tensor T)) : result (tensor T) :=
  t ← not_none t;
  '(fan_in, fan_out) ← fans (shape t);
  if decide (fan_in + fan_out = 0) then Raise ZeroDivisionError
  else Ok (build (shape t) draw).

(** [constant_(t, 0.)] *)
Definition constant_0 (t : option (tensor T)) : result (tensor T) :=
  t ← not_none t;
  Ok (torch_zeros (shape t)).

(** [MultiheadAttention._reset_parameters]; the parameters are updated in
    place, the module with the new values is returned. *)
Definition _reset_parameters (rng : string -> list nat -> T) (self : MultiheadAttention T)
  : result (MultiheadAttention T) :=
  '(inw, qw, kw, vw) ←
     (if _qkv_same_embed_dim self then
        inw ← xavier_ (rng "in_proj_weight") (in_proj_weight self);
        Ok (Some inw, q_proj_weight self, k_proj_weight self, v_proj_weight self)
      else
        qw ← xavier_ (rng "q_proj_weight") (q_proj_weight self);
        kw ← xavier_ (rng "k_proj_weight") (k_proj_weight self);
        vw ← xavier_ (rng "v_proj_weight") (v_proj_weight self);
        Ok (in_proj_weight self, Some qw, Some kw, Some vw));
  ow ← xavier_ (rng "out_proj.weight") (Some (out_proj_weight self));
  '(inb, ob) ←
     (match in_proj_bias self with
      | Some _ =>
          inb ← constant_0 (in_proj_bias self);
          ob ← constant_0 (out_proj_bias self);
          Ok (Some inb, Some ob)
      | None => Ok (None, out_proj_bias self)
      end);
  bk ← (match bias_k self with
        | Some _ => t ← xavier_ (rng "bias_k") (bias_k self); Ok (Some t)
        | None => Ok None
        end);
  bv ← (match bias_v self with
        | Some _ => t ← xavier_ (rng "bias_v") (bias_v self); Ok (Some t)
        | None => Ok None
        end);
  Ok {| embed_dim := embed_dim self; kdim := kdim self; vdim := vdim self;
        _qkv_same_embed_dim := _qkv_same_embed_dim self;
        num_heads := num_heads self; dropout := dropout self;
        head_dim := head_dim self; scaling := scaling self;
        q_proj_weight := qw; k_proj_weight := kw; v_proj_weight := vw;
        in_proj_weight := inw; in_proj_bias := inb;
        out_proj_weight := ow; out_proj_bias := ob;
        bias_k := bk; bias_v := bv;
        add_zero_attn := add_zero_attn self;
        training := training self |}.

End Reset.




(** ** The earlier incremental path

    [_recurrent_forwardxx] indexes the state with [d\[k\]], which raises
    [KeyError]; its outcomes carry that exception beside the others. *)

Inductive xresult (A : Type) : Type :=
| XOk (a : A)
| XRaise (e : exn)
| XKeyError (key : string).
Arguments XOk {A} a.
Arguments XRaise {A} e.
Arguments XKeyError {A} key.

Definition is_xok {A} (r : xresult A) : bool :=
  match r with XOk _ => true | _ => false end.

Section Legacy.
Context {T : Type} `{Scalar T}.

Definition MX (A : Type) : Type := store T -> store T * xresult A.

Definition MX_ret {A} (a : A) : MX A := fun st => (st, XOk a).

Definition MX_bind {A B} (f : A -> MX B) (c : MX A) : MX B :=
  fun st => match c st with
            | (st', XOk a) => f a st'
            | (st', XRaise e) => (st', XRaise e)
            | (st', XKeyError k) => (st', XKeyError k)
            end.

(** A computation that cannot raise [KeyError]. *)
Definition lift_M {A} (c : M T A) : MX A :=
  fun st => match c st with
            | (st', Ok a) => (st', XOk a)
            | (st', Raise e) => (st', XRaise e)
            end.

(** The dictionary behind a value that should be one. *)
Definition deref (d : option ref) (st : store T) : option (gmap string (tensor T)) :=
  match d with
  | Some r => objects st !! r
  | None => None
  end.

(** [k in d] *)
Definition dict_contains (d : option ref) (k : string) : MX bool :=
  fun st => match deref d st with
            | Some m => (st, XOk (bool_decide (is_Some (m !! k))))
            | None => (st, XRaise TypeError)
            end.

(** [d\[k\]] *)
Definition dict_getitem (d : option ref) (k : string) : MX (tensor T) :=
  fun st => match deref d st with
            | Some m => match m !! k with
                        | Some v => (st, XOk v)
                        | None => (st, XKeyError k)
                        end
            | None => (st, XRaise TypeError)
            end.

(** [a, w = self.forward(...)] *)
Definition unpack2 (r : forward_result) : result (tensor T * tensor T) :=
  match r with
  | Plain a w => Ok (a, w)
  | Incremental _ _ _ => Raise ValueError
  end.

End Legacy.
Arguments MX T A : clear implicits.

#[export] Instance MX_mret {T} : MRet (MX T) := fun A a => MX_ret a.
#[export] Instance MX_mbind {T} : MBind (MX T) := fun A B f c => MX_bind f c.

Section LegacyForward.
Context {T : Type} `{Scalar T}.

(** [MultiheadAttention._recurrent_forwardxx] *)
Definition _recurrent_forwardxx (self : MultiheadAttention T) (noise : list nat -> T)
    (query key value : tensor T) (key_padding_mask attn_mask : option (tensor T))
    (static_kv : bool) (prev_state : option ref)
  : MX T (tensor T * tensor T * option ref) :=
  if static_kv then
    r ← lift_M (forward self noise query key value key_padding_mask attn_mask static_kv None);
    '(attn, attn_weights) ← lift_M (pure (unpack2 r));
    mret (attn, attn_weights, prev_state)
  else
    new_state ← lift_M new_dict;
    has_prev ← dict_contains prev_state "prev_key";
    '(key, value, key_padding_mask) ←
       (if has_prev : bool then
          pk ← dict_getitem prev_state "prev_key";
          key ← lift_M (pure (pk' ← transpose pk 0 1; torch_cat [pk'; key] 0));
          pv ← dict_getitem prev_state "prev_value";
          value ← lift_M (pure (pv' ← transpose pv 0 1; torch_cat [pv'; value] 0));
          key_padding_mask ←
            (match key_padding_mask with
             | Some m =>
                 pm ← dict_getitem prev_state "prev_key_padding_mask";
                 m' ← lift_M (pure (torch_cat [pm; m] 1));
                 mret (Some m')
             | None => mret None
             end);
          mret (key, value, key_padding_mask)
        else mret (key, value, key_padding_mask));
    nk ← lift_M (pure (transpose key 0 1));
    _ ← lift_M (dict_set new_state "prev_key" nk);
    nv ← lift_M (pure (transpose value 0 1));
    _ ← lift_M (dict_set new_state "prev_value" nv);
    _ ← (match key_padding_mask with
         | Some m => lift_M (dict_set new_state "prev_key_padding_mask" m)
         | None => mret tt
         end);
    r ← lift_M (forward self noise query key value key_padding_mask attn_mask static_kv None);
    '(attn, attn_weights) ← lift_M (pure (unpack2 r));
    mret (attn, attn_weights, Some new_state).

End LegacyForward.

(** ** A small scalar model

    Integers extended with minus infinity, with a base-two exponential and
    truncating division.  It serves to evaluate the embedding on concrete
    inputs. *)

Module Sample.

Inductive ext : Type := NegInf | Fin (z : Z).

#[global] Instance ext_scalar : Scalar ext := {|
  s_zero := Fin 0;
  s_add := fun a b => match a, b with Fin x, Fin y => Fin (x + y) | _, _ => NegInf end;
  s_mul := fun a b => match a, b with Fin x, Fin y => Fin (x * y) | _, _ => NegInf end;
  s_div := fun a b => match a, b with Fin x, Fin y => Fin (x / y) | _, _ => Fin 0 end;
  s_exp := fun a => match a with Fin x => Fin (2 ^ x) | NegInf => Fin 0 end;
  s_neg_inf := NegInf;
  s_of_Z := Fin;
  s_rsqrt := fun _ => Fin 1;
  s_truthy := fun a => match a with Fin 0 => false | _ => true end;
  s_is_prob := fun a => match a with Fin 0 | Fin 1 => true | _ => false end
|}.

(** Initial parameter values: small integers that depend on the position. *)
Definition rng (name : string) (idx : list nat) : ext :=
  Fin ((Z.of_nat (String.length name) + Z.of_nat (ravel [7; 5; 3] idx)) mod 3 - 1).

Definition no_noise (idx : list nat) : ext := Fin 1.

Definition unbuilt : MultiheadAttention ext :=
  {| embed_dim := 0; kdim := 0; vdim := 0; _qkv_same_embed_dim := true;
     num_heads := 0; dropout := Fin 0; head_dim := 0; scaling := Fin 0;
     q_proj_weight := None; k_proj_weight := None; v_proj_weight := None;
     in_proj_weight := None; in_proj_bias := None;
     out_proj_weight := mkTensor [] []; out_proj_bias := None;
     bias_k := None; bias_v := None; add_zero_attn := false; training := false |}.

Definition from_result {A} (dflt : A) (r : result A) : A :=
  match r with Ok a => a | Raise _ => dflt end.

(** [MultiheadAttention(4, 2)] *)
Definition attn42 : MultiheadAttention ext :=
  from_result unbuilt (__init__ rng 4 2 (Fin 0) true false false None None).

Definition vec (sh : list nat) (zs : list Z) : tensor ext := mkTensor sh (map Fin zs).

(** Three decoding inputs of shape (1, 1, 4). *)
Definition x1 : tensor ext := vec [1; 1; 4] [1; 2; 0; -1]%Z.
Definition x2 : tensor ext := vec [1; 1; 4] [0; 1; 1; 2]%Z.
Definition x3 : tensor ext := vec [1; 1; 4] [2; -1; 1; 0]%Z.

(** A source of two positions, and one of three, of shape (S, 1, 4). *)
Definition src2 : tensor ext := vec [2; 1; 4] [1; 0; 2; 1; 0; 1; -1; 1]%Z.
Definition src3 : tensor ext := vec [3; 1; 4] [1; 0; 2; 1; 0; 1; -1; 1; 2; 2; 0; 1]%Z.

(** A query of two time steps, of shape (2, 1, 4). *)
Definition q2 : tensor ext := vec [2; 1; 4] [1; 2; 0; -1; 0; 1; 1; 2]%Z.

(** Per-step padding masks of shape (1, 1), and a source mask of shape (1, 2). *)
Definition pad0 : tensor ext := vec [1; 1] [0]%Z.
Definition pad1 : tensor ext := vec [1; 1] [1]%Z.
Definition src_pad : tensor ext := vec [1; 2] [0; 1]%Z.

(** The store of a caller that has created one empty decoding state. *)
Definition fresh_store : store ext := mkStore [∅] [].

(** The results of a call, or blanks if it raised. *)
Definition blank : tensor ext := mkTensor [] [].

Definition returned (o : store ext * result (tensor ext * tensor ext * ref))
  : tensor ext * tensor ext * ref :=
  from_result (blank, blank, 0) o.2.

Definition attn_of (o : store ext * result (tensor ext * tensor ext * ref)) : tensor ext :=
  (returned o).1.1.

Definition weights_of (o : store ext * result (tensor ext * tensor ext * ref)) : tensor ext :=
  (returned o).1.2.

(** The dictionary behind a reference, or the empty one. *)
Definition dict_at (st : store ext) (r : ref) : gmap string (tensor ext) :=
  default ∅ (objects st !! r).

(** Three static calls over the source [src2], each given the state the
    one before returned. *)
Definition static_run1 : store ext * result (tensor ext * tensor ext * ref) :=
  _recurrent_forward attn42 no_noise x1 src2 src2 None None true 0 fresh_store.

Definition static_run2 : store ext * result (tensor ext * tensor ext * ref) :=
  _recurrent_forward attn42 no_noise x2 src2 src2 None None true 1 static_run1.1.

Definition static_run3 : store ext * result (tensor ext * tensor ext * ref) :=
  _recurrent_forward attn42 no_noise x3 src2 src2 None None true 2 static_run2.1.

(** Two growing calls with per-step padding masks. *)
Definition growing_run1 : store ext * result (tensor ext * tensor ext * ref) :=
  _recurrent_forward attn42 no_noise x1 x1 x1 (Some pad0) None false 0 fresh_store.

Definition growing_run2 : store ext * result (tensor ext * tensor ext * ref) :=
  _recurrent_forward attn42 no_noise x2 x2 x2 (Some pad1) None false 1 growing_run1.1.

(** A state with an accumulated mask beside the same state without it. *)
Definition two_states : store ext :=
  mkStore [dict_at growing_run1.1 1;
           delete "prev_key_padding_mask" (dict_at growing_run1.1 1)] [].

(** [MultiheadAttention(4, 2, bias=False)] *)
Definition attn42_nobias : MultiheadAttention ext :=
  from_result unbuilt (__init__ rng 4 2 (Fin 0) false false false None None).

(** [attn42] with the flag for separate projection weights cleared. *)
Definition attn42_separate : MultiheadAttention ext :=
  {| embed_dim := embed_dim attn42; kdim := kdim attn42; vdim := vdim attn42;
     _qkv_same_embed_dim := false;
     num_heads := num_heads attn42; dropout := dropout attn42;
     head_dim := head_dim attn42; scaling := scaling attn42;
     q_proj_weight := q_proj_weight attn42; k_proj_weight := k_proj_weight attn42;
     v_proj_weight := v_proj_weight attn42;
     in_proj_weight := in_proj_weight attn42; in_proj_bias := in_proj_bias attn42;
     out_proj_weight := out_proj_weight attn42; out_proj_bias := out_proj_bias attn42;
     bias_k := bias_k attn42; bias_v := bias_v attn42;
     add_zero_attn := add_zero_attn attn42; training := training attn42 |}.

(** A state that holds [static_key] without [static_value]. *)
Definition half_store : store ext := mkStore [{["static_key" := x1]}] [].

(** A state that holds [prev_key] without [prev_value]. *)
Definition key_only_store : store ext := mkStore [{["prev_key" := x1]}] [].



(** Two calls of the earlier path in growing mode. *)
Definition legacy_run1 : store ext * xresult (tensor ext * tensor ext * option ref) :=
  _recurrent_forwardxx attn42 no_noise x1 x1 x1 (Some pad0) None false (Some 0) fresh_store.

Definition legacy_run2 : store ext * xresult (tensor ext * tensor ext * option ref) :=
  _recurrent_forwardxx attn42 no_noise x2 x2 x2 (Some pad1) None false (Some 1) legacy_run1.1.

Definition xreturned (o : store ext * xresult (tensor ext * tensor ext * option ref))
  : tensor ext * tensor ext * option ref :=
  match o.2 with XOk r => r | _ => (blank, blank, None) end.

End Sample.
(** * Verification *)

(** ** Index arithmetic *)

Lemma numel_app a b : numel (a ++ b) = numel a * numel b.
Proof.
  induction a as [|x a IH]; simpl; [lia|]. rewrite IH. lia.
Qed.

Lemma in_bounds_length idx sh : in_bounds idx sh -> length idx = length sh.
Proof. apply Forall2_length. Qed.

Lemma in_bounds_numel_pos idx sh : in_bounds idx sh -> 0 < numel sh.
Proof.
  induction 1; simpl; [lia|]. nia.
Qed.

Lemma ravel_lt idx sh : in_bounds idx sh -> ravel sh idx < numel sh.
Proof.
  induction 1 as [|i n idx sh Hi _ IH]; simpl; [lia|]. nia.
Qed.

Lemma unravel_ravel idx sh : in_bounds idx sh -> unravel sh (ravel sh idx) = idx.
Proof.
  induction 1 as [|i n idx sh Hi Hr IH]; simpl; [reflexivity|].
  pose proof (ravel_lt _ _ Hr) as Hlt.
  assert (Hq : (i * numel sh + ravel sh idx) / numel sh = i).
  { symmetry. apply (Nat.div_unique _ _ _ (ravel sh idx)); lia. }
  assert (Hm : (i * numel sh + ravel sh idx) mod numel sh = ravel sh idx).
  { symmetry. apply (Nat.mod_unique _ _ i); lia. }
  rewrite Hq, Hm, IH. reflexivity.
Qed.

Lemma unravel_in_bounds sh o : o < numel sh -> in_bounds (unravel sh o) sh.
Proof.
  revert o. induction sh as [|n sh IH]; intros o Ho; simpl in *.
  - constructor.
  - assert (0 < numel sh) by nia.
    constructor.
    + apply Nat.Div0.div_lt_upper_bound. lia.
    + apply IH. apply Nat.mod_upper_bound. lia.
Qed.

Lemma ravel_unravel sh o : o < numel sh -> ravel sh (unravel sh o) = o.
Proof.
  revert o. induction sh as [|n sh IH]; intros o Ho; simpl in *.
  - lia.
  - assert (0 < numel sh) by nia.
    rewrite IH by (apply Nat.mod_upper_bound; lia).
    pose proof (Nat.div_mod_eq o (numel sh)). lia.
Qed.

Section TensorFacts.
Context {T : Type} `{Scalar T}.

Lemma wf_build sh (f : list nat -> T) : wf (build sh f).
  Proof. unfold wf, build; simpl. rewrite length_map, length_seq. reflexivity. Qed.

Lemma shape_build sh (f : list nat -> T) : shape (build sh f) = sh.
  Proof. reflexivity. Qed.

Lemma get_build sh (f : list nat -> T) idx :
    in_bounds idx sh -> get (build sh f) idx = f idx.
  Proof.
    intros Hb. unfold get, build; simpl.
    pose proof (ravel_lt _ _ Hb) as Hlt.
    rewrite (nth_indep _ s_zero (f (unravel sh 0))).
    2:{ rewrite length_map, length_seq. exact Hlt. }
    rewrite (map_nth (fun o => f (unravel sh o)) (seq 0 (numel sh)) 0).
    rewrite seq_nth by exact Hlt. simpl.
    rewrite unravel_ravel by exact Hb. reflexivity.
  Qed.

  (** Two well-formed tensors of one shape with equal entries are equal. *)
Lemma tensor_ext (a b : tensor T) :
    wf a -> wf b -> shape a = shape b ->
    (forall idx, in_bounds idx (shape a) -> get a idx = get b idx) ->
    a = b.
  Proof.
    destruct a as [sa da], b as [sb db]; unfold wf, get; simpl.
    intros Ha Hb <- Hget. f_equal.
    apply (nth_ext _ _ s_zero s_zero); [congruence|].
    intros o Ho. rewrite Ha in Ho.
    specialize (Hget (unravel sa o) (unravel_in_bounds _ _ Ho)).
    rewrite ravel_unravel in Hget by exact Ho. exact Hget.
  Qed.

End TensorFacts.


(** ** Reasoning about store computations *)

Definition fails {S A} (o : S * result A) : Prop := exists e, o.2 = Raise e.

Section StoreFacts.
Context {T : Type}.

Lemma fails_bind {A B} (f : A -> M T B) (c : M T A) st :
    (forall a st', c st = (st', Ok a) -> fails (f a st')) ->
    fails (M_bind f c st).
  Proof.
    intros Hf. unfold M_bind. destruct (c st) as [st' [a|e]] eqn:Hc.
    - apply Hf. reflexivity.
    - exists e. reflexivity.
  Qed.

Lemma fails_raise {A} e st : fails (@raise T A e st).
  Proof. exists e. reflexivity. Qed.

  (** *** Locality

      A computation that holds the reference [r] to a dictionary [d] and
      allocates at most its own cells behaves on any store as it does on
      the store that contains [d] alone: the cells below stay as they are,
      and what it allocates lands behind them.  [d :: tl] is the small
      store, [objs ++ tl] the large one. *)

Definition embeds (d : gmap string (tensor T)) (objs : list (gmap string (tensor T)))
      (c0 : list projection) (s1 s2 : store T) : Prop :=
    exists tl, objects s1 = d :: tl /\ objects s2 = objs ++ tl /\
               linear_calls s2 = c0 ++ linear_calls s1.

Definition corr (d : gmap string (tensor T)) (objs : list (gmap string (tensor T)))
      {A} (R : A -> A -> Prop) (c1 c2 : M T A) : Prop :=
    forall c0 s1 s2, embeds d objs c0 s1 s2 ->
      embeds d objs c0 (c1 s1).1 (c2 s2).1 /\
      match (c1 s1).2, (c2 s2).2 with
      | Ok a1, Ok a2 => R a1 a2
      | Raise e1, Raise e2 => e1 = e2
      | _, _ => False
      end.

Section Corr.
Variable d : gmap string (tensor T).
Variable objs : list (gmap string (tensor T)).

Lemma corr_bind {A B} (RA : A -> A -> Prop) (RB : B -> B -> Prop)
        (c1 c2 : M T A) (f1 f2 : A -> M T B) :
      corr d objs RA c1 c2 ->
      (forall a1 a2, RA a1 a2 -> corr d objs RB (f1 a1) (f2 a2)) ->
      corr d objs RB (M_bind f1 c1) (M_bind f2 c2).
    Proof.
      intros Hc Hf c0 s1 s2 He. unfold M_bind.
      specialize (Hc c0 s1 s2 He).
      destruct (c1 s1) as [s1' [a1|e1]], (c2 s2) as [s2' [a2|e2]];
        simpl in Hc; destruct Hc as [He' HR]; try contradiction.
      - apply (Hf a1 a2 HR c0 s1' s2' He').
      - split; [exact He'|exact HR].
    Qed.

Lemma corr_pure {A} (r : result A) : corr d objs eq (pure r) (pure r).
    Proof.
      intros c0 s1 s2 He. unfold pure; simpl. split; [exact He|].
      destruct r; reflexivity.
    Qed.

Lemma corr_ret {A} (R : A -> A -> Prop) a1 a2 :
      R a1 a2 -> corr d objs R (M_ret a1) (M_ret a2).
    Proof. intros HR c0 s1 s2 He. split; [exact He|exact HR]. Qed.

Lemma corr_raise {A} (R : A -> A -> Prop) e : corr d objs R (raise e) (raise e).
    Proof. intros c0 s1 s2 He. split; [exact He|reflexivity]. Qed.

Lemma corr_log p : corr d objs eq (log_linear p) (log_linear p).
    Proof.
      intros c0 s1 s2 (tl & H1 & H2 & H3). split; [|reflexivity].
      exists tl. simpl. rewrite H3, app_assoc. auto.
    Qed.

    (** Writes to a cell above [d]: cell [S i] of the small store is cell
        [length objs + i] of the large one. *)
Lemma corr_dict_set i k v :
      corr d objs eq (dict_set (S i) k v) (dict_set (length objs + i) k v).
    Proof.
      intros c0 s1 s2 (tl & H1 & H2 & H3). unfold dict_set.
      rewrite H1, H2. simpl.
      rewrite lookup_app_r by lia.
      replace (length objs + i - length objs) with i by lia.
      destruct (tl !! i) as [m|] eqn:Hm; simpl.
      - split; [|reflexivity]. exists (<[i := <[k := v]> m]> tl). simpl.
        split; [reflexivity|]. split; [|exact H3].
        rewrite insert_app_r_alt by lia. f_equal. f_equal. lia.
      - split; [|reflexivity]. exists tl. auto.
    Qed.

End Corr.

End StoreFacts.

Section StoreFacts2.
Context {T : Type}.
Variable d : gmap string (tensor T).
Variable objs : list (gmap string (tensor T)).

  (** Reads through a reference to [d]. *)
Lemma corr_dict_get r k :
    objs !! r = Some d ->
    corr d objs eq (dict_get 0 k) (dict_get r k).
  Proof.
    intros Hr c0 s1 s2 (tl & H1 & H2 & H3). unfold dict_get.
    rewrite H1, H2. simpl. rewrite (lookup_app_l_Some _ _ _ _ Hr). simpl.
    split; [|reflexivity]. exists tl. auto.
  Qed.

  (** Reads of a key on which the two dictionaries agree. *)
Lemma corr_dict_get_agree d' r k :
    objs !! r = Some d' -> d !! k = d' !! k ->
    corr d objs eq (dict_get 0 k) (dict_get r k).
  Proof.
    intros Hr Hk c0 s1 s2 (tl & H1 & H2 & H3). unfold dict_get.
    rewrite H1, H2. simpl. rewrite (lookup_app_l_Some _ _ _ _ Hr). simpl.
    split; [|exact Hk]. exists tl. auto.
  Qed.

  (** Reads whose result the continuation may not rely on. *)
Lemma corr_dict_get_any d' r k :
    objs !! r = Some d' ->
    corr d objs (fun _ _ => True) (dict_get 0 k) (dict_get r k).
  Proof.
    intros Hr c0 s1 s2 (tl & H1 & H2 & H3). unfold dict_get.
    rewrite H1, H2. simpl. rewrite (lookup_app_l_Some _ _ _ _ Hr). simpl.
    split; [|exact I]. exists tl. auto.
  Qed.

  (** A fresh cell lands at corresponding places. *)
Lemma corr_new_dict :
    corr d objs (fun a1 a2 => exists i, a1 = S i /\ a2 = length objs + i)
         new_dict new_dict.
  Proof.
    intros c0 s1 s2 (tl & H1 & H2 & H3). unfold new_dict. simpl. split.
    - exists (tl ++ [∅]). rewrite H1, H2. simpl. rewrite app_assoc. auto.
    - exists (length tl). rewrite H1, H2. simpl. rewrite length_app. auto.
  Qed.

End StoreFacts2.

Ltac corr_step :=
  lazymatch goal with
  | |- corr _ _ _ (M_bind _ _) (M_bind _ _) =>
      apply (corr_bind _ _ eq); [| intros ? ? <-]
  | |- corr _ _ _ (pure _) (pure _) => apply corr_pure
  | |- corr _ _ _ (M_ret _) (M_ret _) => apply corr_ret; try reflexivity
  | |- corr _ _ _ (raise _) (raise _) => apply corr_raise
  | |- corr _ _ _ (log_linear _) (log_linear _) => apply corr_log
  | |- corr _ _ _ (dict_set _ _ _) (dict_set _ _ _) => apply corr_dict_set
  | |- corr _ _ _ (match ?x with _ => _ end) _ => destruct x
  end.

Ltac unfold_monad :=
  unfold mbind, M_mbind, mret, M_mret in *.

(** ** Inversion of successful runs *)

Lemma M_bind_ok {T A B} (f : A -> M T B) (c : M T A) st st' b :
  M_bind f c st = (st', Ok b) ->
  exists a st1, c st = (st1, Ok a) /\ f a st1 = (st', Ok b).
Proof.
  unfold M_bind. destruct (c st) as [st1 [a|e]]; intros Hb; [eauto|discriminate].
Qed.

Lemma pure_ok {T A} (r : result A) (st st' : store T) a :
  pure r st = (st', Ok a) -> st' = st /\ r = Ok a.
Proof. unfold pure. intros [= <- ->]. auto. Qed.

Lemma result_bind_ok {A B} (f : A -> result B) (r : result A) b :
  r ≫= f = Ok b -> exists a, r = Ok a /\ f a = Ok b.
Proof. destruct r as [a|e]; simpl; intros Hb; [eauto|discriminate]. Qed.

Lemma dict_get_ok {T} r k (st st' : store T) o :
  dict_get r k st = (st', Ok o) ->
  st' = st /\ exists m, objects st !! r = Some m /\ o = m !! k.
Proof.
  unfold dict_get. destruct (objects st !! r) as [m|]; intros [= <- <-]. eauto.
Qed.

Lemma new_dict_ok {T} (st st' : store T) n :
  new_dict st = (st', Ok n) ->
  st' = mkStore (objects st ++ [∅]) (linear_calls st) /\ n = length (objects st).
Proof. unfold new_dict. intros [= <- <-]. auto. Qed.

Lemma dict_set_ok {T} r k v (st st' : store T) u :
  dict_set r k v st = (st', Ok u) ->
  exists m, objects st !! r = Some m /\
            st' = mkStore (<[r := <[k := v]> m]> (objects st)) (linear_calls st).
Proof.
  unfold dict_set. destruct (objects st !! r) as [m|]; intros [= <- _]. eauto.
Qed.

Lemma log_linear_ok {T} p (st st' : store T) u :
  log_linear p st = (st', Ok u) ->
  st' = mkStore (objects st) (linear_calls st ++ [p]).
Proof. unfold log_linear. intros [= <- _]. reflexivity. Qed.

Ltac monad_inv1 :=
  match goal with
  | Hb : M_bind _ _ _ = (_, Ok _) |- _ =>
      apply M_bind_ok in Hb; destruct Hb as (? & ? & ? & Hb)
  | Hb : pure _ _ = (_, Ok _) |- _ =>
      apply pure_ok in Hb; destruct Hb as [-> Hb]
  | Hb : M_ret _ _ = (_, Ok _) |- _ =>
      unfold M_ret in Hb; injection Hb; clear Hb; intros; subst
  | Hb : raise _ _ = (_, Ok _) |- _ => discriminate Hb
  | Hb : dict_get _ _ _ = (_, Ok _) |- _ =>
      apply dict_get_ok in Hb; destruct Hb as (-> & ? & ? & ->)
  | Hb : new_dict _ = (_, Ok _) |- _ =>
      apply new_dict_ok in Hb; destruct Hb as (-> & ->)
  | Hb : dict_set _ _ _ _ = (_, Ok _) |- _ =>
      apply dict_set_ok in Hb; destruct Hb as (? & ? & ->)
  | Hb : log_linear _ _ = (_, Ok _) |- _ =>
      apply log_linear_ok in Hb; subst
  | Hb : (match ?x with _ => _ end) _ = (_, Ok _) |- _ => destruct x eqn:?
  end.

(** ** Locality of [_recurrent_forward] *)

Section Locality.
Context {T : Type} `{Scalar T}.

Definition ref_rel (objs : list (gmap string (tensor T)))
      (x y : tensor T * tensor T * ref) : Prop :=
    x.1 = y.1 /\ exists i, x.2 = S i /\ y.2 = length objs + i.

  (** The call on any store against the call on the store holding only the
      dictionary behind [prev_state]. *)
Lemma recurrent_forward_corr (self : MultiheadAttention T) noise q k v kpm am skv
        (d : gmap string (tensor T)) objs r :
    objs !! r = Some d ->
    corr d objs (ref_rel objs)
      (_recurrent_forward self noise q k v kpm am skv 0)
      (_recurrent_forward self noise q k v kpm am skv r).
  Proof.
    intros Hr. unfold _recurrent_forward. unfold_monad.
    corr_step; [corr_step|]. destruct a1 as [[tgt_len bsz] e].
    corr_step; [corr_step|].
    do 5 (corr_step; [apply corr_dict_get; exact Hr|]).
    apply (corr_bind _ _ _ _ _ _ _ _ (corr_new_dict d objs)).
    intros ? ? (i & -> & ->).
    repeat (cbv zeta; corr_step).
    all: cbv zeta.
    all: try (split; [reflexivity|eauto]).
  Qed.

  (** A call that returns hands back the reference of a cell that did not
      exist before the call, and allocates nothing else. *)
Lemma recurrent_forward_fresh (self : MultiheadAttention T) noise q k v kpm am skv r
      st st' a w ns :
  _recurrent_forward self noise q k v kpm am skv r st = (st', Ok (a, w, ns)) ->
  ns = length (objects st) /\ length (objects st') = S (length (objects st)).
Proof.
  intros Hrun. unfold _recurrent_forward in Hrun. unfold_monad.
  monad_inv1. destruct x as [[tgt_len bsz] e].
  do 15 monad_inv1.
  repeat (try (cbv zeta in Hrun); monad_inv1).
  all: split; [reflexivity|].
  all: simpl; rewrite ?length_insert, ?length_app; simpl; lia.
Qed.

End Locality.

(** ** Fail-fast on multi-step queries *)

Section FailFast.
Context {T : Type} `{Scalar T}.

Lemma not_ok_fails {S A} (o : S * result A) :
  (forall s a, o <> (s, Ok a)) -> fails o.
Proof.
  destruct o as [s [a|e]]; intros Hn.
  - exfalso. apply (Hn s a). reflexivity.
  - exists e. reflexivity.
Qed.

Lemma recurrent_forward_ok_single_step (self : MultiheadAttention T) noise q k v kpm am skv r
      st st' res tgt_len bsz e :
  shape q = [tgt_len; bsz; e] ->
  _recurrent_forward self noise q k v kpm am skv r st = (st', Ok res) ->
  tgt_len <= 1.
Proof.
  intros Hq Hrun. unfold _recurrent_forward in Hrun. unfold_monad.
  monad_inv1. destruct x as [[tgt_len' bsz'] e'].
  do 15 monad_inv1.
  match goal with Hs : size3 q = _ |- _ => unfold size3 in Hs; rewrite Hq in Hs;
    injection Hs as <- <- <- end.
  repeat (try (cbv zeta in Hrun); monad_inv1).
  all: lia.
Qed.

(** C5. An incremental call (prev_state supplied) whose query has more than
    one time step raises an error and returns nothing. *)
Theorem C5_multi_step_incremental_call_raises (self : MultiheadAttention T) noise
    q k v kpm am skv (prev : ref) st tgt_len bsz e :
  shape q = [tgt_len; bsz; e] -> 1 < tgt_len ->
  fails (forward self noise q k v kpm am skv (Some prev) st).
Proof.
  intros Hq Hlen. apply not_ok_fails. intros s a Hrun.
  unfold forward in Hrun. unfold_monad.
  apply M_bind_ok in Hrun. destruct Hrun as (res & st1 & Hrf & _).
  pose proof (recurrent_forward_ok_single_step _ _ _ _ _ _ _ _ _ _ _ _ _ _ _ Hq Hrf).
  lia.
Qed.

End FailFast.

(** At target length 2 with otherwise valid inputs the error is the bare
    [RuntimeError] of the explicit check. *)
Example multi_step_sample :
  (forward Sample.attn42 Sample.no_noise Sample.q2 Sample.q2 Sample.q2 None None false
           (Some 0) Sample.fresh_store).2 = Raise RuntimeError.
Proof. vm_compute. reflexivity. Qed.

Lemma C5_witness :
  fails (forward Sample.attn42 Sample.no_noise Sample.q2 Sample.q2 Sample.q2 None None false
                 (Some 0) Sample.fresh_store).
Proof.
  apply (C5_multi_step_incremental_call_raises _ _ _ _ _ _ _ _ _ _ 2 1 4);
    [reflexivity | lia].
Defined.

(** ** The state passed in is left alone *)

Section Frame.
Context {T : Type} `{Scalar T}.

Lemma embeds_initial (d : gmap string (tensor T)) (st : store T) :
  embeds d (objects st) (linear_calls st) (mkStore [d] []) st.
Proof. exists []. simpl. rewrite !app_nil_r. auto. Qed.


End Frame.



(** ** Construction *)

Ltac result_inv1 :=
  match goal with
  | Hb : result_bind _ _ _ _ = Ok _ |- _ =>
      apply result_bind_ok in Hb; destruct Hb as (? & ? & Hb)
  | Hb : mbind _ _ = Ok _ |- _ =>
      apply result_bind_ok in Hb; destruct Hb as (? & ? & Hb)
  | Hb : Raise _ = Ok _ |- _ => discriminate Hb
  | Hb : Ok _ = Ok _ |- _ => injection Hb; clear Hb; intros; subst
  | Hb : (match ?x with _ => _ end) = Ok _ |- _ => destruct x eqn:?
  end.

Section Construction.
Context {T : Type} `{Scalar T}.

Lemma assert_ok b msg u : assert b msg = Ok u -> b = true.
Proof. destruct b; [reflexivity|discriminate]. Qed.

Lemma floordiv_ok a b q : floordiv a b = Ok q -> b <> 0%Z /\ q = (a / b)%Z.
Proof. unfold floordiv. destruct (decide (b = 0%Z)); [discriminate|]. intros [= <-]. auto. Qed.

(** What a successful construction tells about the arguments. *)
Lemma init_ok_inv rng e n p bias akv azn kd vd (self : MultiheadAttention T) :
  __init__ rng e n p bias akv azn kd vd = Ok self ->
  (n | e)%Z /\ default e kd = e /\ default e vd = e /\ azn = false.
Proof.
  unfold __init__. intros Hi.
  apply result_bind_ok in Hi. destruct Hi as (hd & Hfd & Hi).
  apply floordiv_ok in Hfd. destruct Hfd as [Hn ->].
  apply result_bind_ok in Hi. destruct Hi as (sc & _ & Hi).
  apply result_bind_ok in Hi. destruct Hi as (u1 & Hdiv & Hi).
  apply assert_ok, bool_decide_eq_true in Hdiv.
  apply result_bind_ok in Hi. destruct Hi as (u2 & Hsame & Hi).
  apply assert_ok, andb_true_iff in Hsame. destruct Hsame as [Hk Hv].
  apply bool_decide_eq_true in Hk, Hv.
  apply result_bind_ok in Hi. destruct Hi as (ws & _ & Hi).
  destruct ws as [[[qw kw] vw] inw].
  apply result_bind_ok in Hi. destruct Hi as (inb & _ & Hi).
  apply result_bind_ok in Hi. destruct Hi as (ows & _ & Hi).
  apply result_bind_ok in Hi. destruct Hi as (ob & _ & Hi).
  apply result_bind_ok in Hi. destruct Hi as (bkv & _ & Hi).
  destruct bkv as [bk bv].
  apply result_bind_ok in Hi. destruct Hi as (u3 & Hz & _).
  apply assert_ok, negb_true_iff in Hz.
  repeat split; try assumption.
  exists (e / n)%Z. lia.
Qed.

Lemma torch_empty_nonneg dims :
  Forall (fun x => (0 <= x)%Z) dims -> torch_empty dims = Ok (map Z.to_nat dims).
Proof.
  intros Hd. unfold torch_empty.
  replace (forallb (fun x => (0 <=? x)%Z) dims) with true; [reflexivity|].
  symmetry. apply forallb_forall. intros x Hx.
  rewrite Forall_forall in Hd. apply Z.leb_le, Hd, list_elem_of_In, Hx.
Qed.

(** C6 (amended). Construction raises if [embed_dim] is not divisible by
    [num_heads], if [kdim] or [vdim] is given and differs from [embed_dim],
    or if [add_zero_attn] is set; for a positive [embed_dim] it succeeds in
    every other case. *)
Theorem C6_construction_errors rng (e n : Z) (p : T) (bias akv azn : bool) (kd vd : option Z) :
  (~ (n | e)%Z \/ default e kd <> e \/ default e vd <> e \/ azn = true ->
   raises (__init__ rng e n p bias akv azn kd vd)) /\
  ((0 < e)%Z -> (n | e)%Z -> default e kd = e -> default e vd = e -> azn = false ->
   is_ok (__init__ rng e n p bias akv azn kd vd) = true).
Proof.
  split.
  - intros Hbad.
    destruct (__init__ rng e n p bias akv azn kd vd) as [self|err] eqn:Hi.
    + apply init_ok_inv in Hi. destruct Hi as (Hd & Hk & Hv & Hz).
      exfalso. destruct Hbad as [Hb|[Hb|[Hb|Hb]]]; [tauto|tauto|tauto|congruence].
    + exists err. reflexivity.
  - intros He [q Hq] Hk Hv ->.
    assert (Hn : n <> 0%Z) by lia.
    assert (Hdiv : (e / n)%Z = q) by (subst e; apply Z.div_mul; exact Hn).
    assert (Hq0 : q <> 0%Z) by lia.
    unfold __init__. rewrite Hk, Hv.
    unfold floordiv. destruct (decide (n = 0%Z)) as [?|_]; [contradiction|].
    simpl. unfold pow_neg_half. rewrite Hdiv.
    destruct (decide (q = 0%Z)) as [?|_]; [contradiction|]. simpl.
    rewrite (bool_decide_eq_true_2 _ (eq_sym Hq)).
    rewrite (bool_decide_eq_true_2 (e = e) eq_refl). simpl.
    rewrite !torch_empty_nonneg by (repeat constructor; lia). simpl.
    destruct bias; simpl;
      rewrite ?torch_empty_nonneg by (repeat constructor; lia); simpl;
      destruct akv; simpl;
      rewrite ?torch_empty_nonneg by (repeat constructor; lia); reflexivity.
Qed.

End Construction.

(** The claim as stated fails in its last part: with a divisible
    [embed_dim] and no [kdim]/[vdim], construction still raises when
    [add_zero_attn] is requested. *)
Lemma C6_counterexample :
  (2 | 4)%Z /\
  __init__ Sample.rng 4 2 (Sample.Fin 0) true false true None None
  = Raise (AssertionError "add_zero_attn is not supported").
Proof. split; [exists 2%Z; reflexivity | vm_compute; reflexivity]. Qed.

(** [embed_dim=10], [num_heads=3] is rejected. *)
Example construction_10_3 :
  __init__ Sample.rng 10 3 (Sample.Fin 0) true false false None None
  = Raise (AssertionError "embed_dim must be divisible by num_heads").
Proof. vm_compute. reflexivity. Qed.

Lemma C6_witness :
  raises (__init__ Sample.rng 10 3 (Sample.Fin 0) true false false None None) /\
  is_ok (__init__ Sample.rng 4 2 (Sample.Fin 0) true false false None None) = true.
Proof.
  split.
  - apply (C6_construction_errors Sample.rng 10 3 (Sample.Fin 0) true false false None None).
    left. intros [q Hq]. lia.
  - apply (C6_construction_errors Sample.rng 4 2 (Sample.Fin 0) true false false None None);
      [lia | exists 2%Z; reflexivity | reflexivity | reflexivity | reflexivity].
Defined.

(** ** Calls seen from the state they are given

    [local_run] is the call on the store that holds nothing but the
    dictionary behind [prev_state].  By locality it determines the call on
    every other store. *)

Section Local.
Context {T : Type} `{Scalar T}.

Definition local_run (self : MultiheadAttention T) noise q k v kpm am skv
    (d : gmap string (tensor T)) : store T * result (tensor T * tensor T * ref) :=
  _recurrent_forward self noise q k v kpm am skv 0 (mkStore [d] []).

Definition relabel (n : ref) (r : result (tensor T * tensor T * ref))
  : result (tensor T * tensor T * ref) :=
  match r with
  | Ok (a, w, _) => Ok (a, w, n)
  | Raise e => Raise e
  end.

Lemma recurrent_forward_local (self : MultiheadAttention T) noise q k v kpm am skv
      prev st d :
  objects st !! prev = Some d ->
  let ol := local_run self noise q k v kpm am skv d in
  let o := _recurrent_forward self noise q k v kpm am skv prev st in
  o.2 = relabel (length (objects st)) ol.2 /\
  objects ol.1 = d :: drop 1 (objects ol.1) /\
  objects o.1 = objects st ++ drop 1 (objects ol.1) /\
  linear_calls o.1 = linear_calls st ++ linear_calls ol.1.
Proof.
  intros Hd ol o.
  destruct (recurrent_forward_corr self noise q k v kpm am skv d (objects st) prev Hd
              (linear_calls st) (mkStore [d] []) st (embeds_initial d st))
    as [(tl & Hl & Hobjs & Hcalls) Hres].
  fold (local_run self noise q k v kpm am skv d) in Hl, Hcalls, Hres.
  fold ol in Hl, Hcalls, Hres. fold o in Hobjs, Hcalls, Hres.
  rewrite Hl. simpl. rewrite drop_0.
  split; [|auto].
  destruct (o.2) as [[[a w] ns]|e] eqn:Ho, (ol.2) as [[[a' w'] ns']|e'] eqn:Hol;
    simpl in *; try contradiction.
  - destruct Hres as [Haw _]. simpl in Haw. injection Haw as <- <-.
    assert (Hrun : _recurrent_forward self noise q k v kpm am skv prev st
                   = (o.1, Ok (a', w', ns))).
    { subst o. destruct (_recurrent_forward _ _ _ _ _ _ _ _ _ _) as [s r'].
      simpl in *. congruence. }
    apply recurrent_forward_fresh in Hrun. destruct Hrun as [-> _]. reflexivity.
  - congruence.
Qed.

End Local.

(** ** The call as a function of the state dictionary

    [_recurrent_forward] on the store that holds only the dictionary [d]
    computes what [step] computes from [d], raises where [step] raises and
    with the same exception.  The proof runs both sides forward in step. *)

Section Agreement.
Context {T : Type} `{Scalar T}.

Definition agree (d : gmap string (tensor T))
    (o : store T * result (tensor T * tensor T * ref))
    (p : result (gmap string (tensor T) * list projection * tensor T * tensor T)) : Prop :=
  match o.2, p with
  | Ok (a, w, ns), Ok (nd, calls, a', w') =>
      a = a' /\ w = w' /\ ns = 1 /\ o.1 = mkStore [d; nd] calls
  | Raise e, Raise e' => e = e'
  | _, _ => False
  end.

End Agreement.

Ltac red_store :=
  repeat match goal with
  | |- context [ (?x :: ?l) !! 0 ] => change ((x :: l) !! 0) with (Some x)
  | |- context [ [?x; ?y] !! 1 ] => change ([x; y] !! 1) with (Some y)
  | |- context [ <[1 := ?z]> [?x; ?y] ] => change (<[1 := z]> [x; y]) with [x; z]
  | |- context [ length [?x] ] => change (length [x]) with 1
  | |- context [ [?x] ++ [?y] ] => change ([x] ++ [y]) with [x; y]
  | |- context [ [] ++ ?y ] => change ([] ++ y) with y
  | |- context [ [?x] ++ ?y ] => change ([x] ++ y) with (x :: y)
  | |- context [ [?x1; ?x2] ++ ?y ] => change ([x1; x2] ++ y) with (x1 :: x2 :: y)
  | |- context [ [?x1; ?x2; ?x3] ++ ?y ] => change ([x1; x2; x3] ++ y) with (x1 :: x2 :: x3 :: y)
  end.

Ltac red_monad1 :=
  cbv beta iota zeta delta [M_bind pure M_ret raise new_dict dict_get dict_set log_linear
       result_bind assert not_none tensor_arg negb andb];
  cbn [objects linear_calls];
  red_store.

Ltac red_monad := red_monad1; repeat (progress red_monad1).

Ltac innermost r :=
  lazymatch r with
  | match ?r' with _ => _ end => innermost r'
  | (match ?r' with _ => _ end) _ => innermost r'
  | _ => constr:(r)
  end.

Ltac is_stuck t :=
  lazymatch t with
  | match _ with _ => _ end => idtac
  | (match _ with _ => _ end) _ => idtac
  end.

Ltac fwd :=
  red_monad;
  lazymatch goal with
  | |- agree _ ?o ?p =>
      first [ is_stuck o; let x := innermost o in destruct x eqn:?
            | is_stuck p; let x := innermost p in destruct x eqn:?
            | reflexivity ]
  end.

Section StepFacts.
Context {T : Type} `{Scalar T}.

Lemma local_run_agree (self : MultiheadAttention T) noise q k v kpm am skv d :
  agree d (local_run self noise q k v kpm am skv d) (step self noise q k v kpm am skv d).
Proof.
  unfold local_run, _recurrent_forward, step, static_cached_step, static_first_step,
    growing_step, attention_core, extend_history, extend_mask, packed_projections,
    packed_only, split_heads, as_cache, of_cache, bh_dim.
  unfold_monad. unfold mbind.
  destruct skv.
  - repeat fwd.
    all: unfold agree; cbn [fst snd]; auto.
  - repeat fwd.
    all: unfold agree; cbn [fst snd]; auto.
Qed.

Lemma store_eta (s : store T) : s = mkStore (objects s) (linear_calls s).
Proof. destruct s; reflexivity. Qed.

(** On any store: a call returns exactly when [step] does; it then appends
    the new dictionary and the logged projections and returns the two
    tensors with the reference of the new dictionary.  Otherwise it raises
    the exception of [step]. *)
Lemma recurrent_forward_step (self : MultiheadAttention T) noise q k v kpm am skv prev st d :
  objects st !! prev = Some d ->
  let o := _recurrent_forward self noise q k v kpm am skv prev st in
  match step self noise q k v kpm am skv d with
  | Ok (nd, calls, a, w) =>
      o = (mkStore (objects st ++ [nd]) (linear_calls st ++ calls),
           Ok (a, w, length (objects st)))
  | Raise e => o.2 = Raise e
  end.
Proof.
  intros Hd o.
  destruct (recurrent_forward_local self noise q k v kpm am skv prev st d Hd)
    as (Hres & _ & Hobjs & Hcalls).
  fold o in Hres, Hobjs, Hcalls.
  pose proof (local_run_agree self noise q k v kpm am skv d) as Hag.
  unfold agree in Hag.
  destruct (local_run self noise q k v kpm am skv d) as [sl [[[a w] ns]|e]];
    destruct (step self noise q k v kpm am skv d) as [[[[nd calls] a'] w']|e'];
    simpl in *; try contradiction.
  - destruct Hag as (<- & <- & -> & ->). simpl in *.
    destruct o as [so ro]. simpl in *. subst ro.
    f_equal. rewrite (store_eta so), Hobjs, Hcalls. reflexivity.
  - subst e'. exact Hres.
Qed.

End StepFacts.

(** ** What a call leaves in the state it returns *)

Section Returned.
Context {T : Type} `{Scalar T}.

Lemma recurrent_forward_ok_iff (self : MultiheadAttention T) noise q k v kpm am skv
      prev st d st' a w ns :
  objects st !! prev = Some d ->
  _recurrent_forward self noise q k v kpm am skv prev st = (st', Ok (a, w, ns)) <->
  exists nd calls, step self noise q k v kpm am skv d = Ok (nd, calls, a, w) /\
                   st' = mkStore (objects st ++ [nd]) (linear_calls st ++ calls) /\
                   ns = length (objects st).
Proof.
  intros Hd.
  pose proof (recurrent_forward_step self noise q k v kpm am skv prev st d Hd) as Hs.
  cbv zeta in Hs. split.
  - intros Hrun. rewrite Hrun in Hs.
    destruct (step self noise q k v kpm am skv d) as [[[[nd calls] a'] w']|e].
    + injection Hs as -> -> -> ->. eauto.
    + discriminate Hs.
  - intros (nd & calls & Hstep & -> & ->). rewrite Hstep in Hs. exact Hs.
Qed.

Lemma static_cached_step_ok (self : MultiheadAttention T) noise q k kpm am sk sv
      nd calls a w :
  static_cached_step self noise q k kpm am sk sv = Ok (nd, calls, a, w) ->
  nd = ∅ /\ calls = [ProjQuery; ProjOut].
Proof.
  unfold static_cached_step. intros Hs. repeat result_inv1. auto.
Qed.

Lemma static_first_step_ok (self : MultiheadAttention T) noise q k v kpm am nd calls a w :
  static_first_step self noise q k v kpm am = Ok (nd, calls, a, w) ->
  exists tgt_len bsz e qw kw vw qb kb vb k1 v1 k2 v2 sk sv,
    size3 q = Ok (tgt_len, bsz, e) /\
    packed_projections self = Ok (qw, kw, vw, (qb, kb, vb)) /\
    F_linear k kw (Some kb) = Ok k1 /\ F_linear v vw (Some vb) = Ok v1 /\
    split_heads self bsz k1 = Ok k2 /\ split_heads self bsz v1 = Ok v2 /\
    as_cache self bsz k2 = Ok sk /\ as_cache self bsz v2 = Ok sv /\
    nd = <["static_value" := sv]> (<["static_key" := sk]> ∅) /\
    calls = [ProjQuery; ProjKey; ProjValue; ProjOut].
Proof.
  unfold static_first_step. intros Hs. repeat result_inv1.
  repeat eexists; eauto.
Qed.

Lemma not_none_ok {A} (o : option A) a : not_none o = Ok a -> o = Some a.
Proof. destruct o; simpl; congruence. Qed.

Lemma growing_step_ok (self : MultiheadAttention T) noise q k v kpm am pk pv pm
      nd calls a w :
  growing_step self noise q k v kpm am pk pv pm = Ok (nd, calls, a, w) ->
  exists tgt_len bsz e qw kw vw qb kb vb k1 v1 k2 v2 k3 v3 nk nv mask,
    size3 q = Ok (tgt_len, bsz, e) /\
    packed_projections self = Ok (qw, kw, vw, (qb, kb, vb)) /\
    F_linear k kw (Some kb) = Ok k1 /\ F_linear v vw (Some vb) = Ok v1 /\
    split_heads self bsz k1 = Ok k2 /\ split_heads self bsz v1 = Ok v2 /\
    extend_history self bsz pk k2 = Ok k3 /\
    match pk with
    | Some _ => exists pv', pv = Some pv' /\ extend_history self bsz pv v2 = Ok v3
    | None => v3 = v2
    end /\
    as_cache self bsz k3 = Ok nk /\ as_cache self bsz v3 = Ok nv /\
    extend_mask pm kpm = Ok mask /\
    nd = with_mask mask (<["prev_value" := nv]> (<["prev_key" := nk]> ∅)) /\
    calls = [ProjQuery; ProjKey; ProjValue; ProjOut].
Proof.
  unfold growing_step, attention_core. intros Hs.
  repeat result_inv1.
  all: repeat match goal with Hn : not_none _ = Ok _ |- _ => apply not_none_ok in Hn; subst end.
  all: do 18 eexists.
  all: repeat (split; [eassumption || reflexivity|]).
  all: try (split; [eauto|]).
  all: repeat (split; [eassumption || reflexivity|]).
  all: try reflexivity.
Qed.

(** X1. Static mode with the cache present in [prev_state]: a call that
    returns has evaluated the query and the output projection only, no key
    or value projection, and the dictionary it returns is empty. *)
Theorem static_cached_call_projects_query_only (self : MultiheadAttention T) noise
    q k v kpm am prev st d st' a w ns :
  objects st !! prev = Some d ->
  is_Some (d !! "static_key") ->
  _recurrent_forward self noise q k v kpm am true prev st = (st', Ok (a, w, ns)) ->
  linear_calls st' = linear_calls st ++ [ProjQuery; ProjOut] /\
  objects st' !! ns = Some ∅.
Proof.
  intros Hd [sk Hsk] Hrun.
  apply (recurrent_forward_ok_iff _ _ _ _ _ _ _ _ _ _ _ _ _ _ _ Hd) in Hrun.
  destruct Hrun as (nd & calls & Hstep & -> & ->).
  unfold step in Hstep. rewrite Hsk in Hstep.
  apply static_cached_step_ok in Hstep. destruct Hstep as [-> ->].
  simpl. split; [reflexivity|].
  rewrite lookup_app_r by lia. rewrite Nat.sub_diag. reflexivity.
Qed.

(** X2. Static mode on a state without [static_key]: a call that returns
    has evaluated all four projections, and the dictionary it returns holds
    exactly [static_key] and [static_value], the projected key and value
    split into heads and reshaped to (bsz, heads, len, head_dim). *)
Theorem static_first_call_fills_cache (self : MultiheadAttention T) noise
    q k v kpm am prev st d st' a w ns :
  objects st !! prev = Some d ->
  d !! "static_key" = None ->
  _recurrent_forward self noise q k v kpm am true prev st = (st', Ok (a, w, ns)) ->
  exists tgt_len bsz e qw kw vw qb kb vb k1 v1 k2 v2 sk sv,
    size3 q = Ok (tgt_len, bsz, e) /\
    packed_projections self = Ok (qw, kw, vw, (qb, kb, vb)) /\
    F_linear k kw (Some kb) = Ok k1 /\ F_linear v vw (Some vb) = Ok v1 /\
    split_heads self bsz k1 = Ok k2 /\ split_heads self bsz v1 = Ok v2 /\
    as_cache self bsz k2 = Ok sk /\ as_cache self bsz v2 = Ok sv /\
    objects st' !! ns = Some (<["static_value" := sv]> (<["static_key" := sk]> ∅)) /\
    linear_calls st' = linear_calls st ++ [ProjQuery; ProjKey; ProjValue; ProjOut].
Proof.
  intros Hd Hsk Hrun.
  apply (recurrent_forward_ok_iff _ _ _ _ _ _ _ _ _ _ _ _ _ _ _ Hd) in Hrun.
  destruct Hrun as (nd & calls & Hstep & -> & ->).
  unfold step in Hstep. rewrite Hsk in Hstep.
  apply static_first_step_ok in Hstep.
  destruct Hstep as (tgt_len & bsz & e & qw & kw & vw & qb & kb & vb & k1 & v1 & k2 & v2
                     & sk & sv & H1 & H2 & H3 & H4 & H5 & H6 & H7 & H8 & -> & ->).
  exists tgt_len, bsz, e, qw, kw, vw, qb, kb, vb, k1, v1, k2, v2, sk, sv.
  repeat (split; [assumption|]). simpl. split; [|reflexivity].
  rewrite lookup_app_r by lia. rewrite Nat.sub_diag. reflexivity.
Qed.

End Returned.

(** ** What a call does not depend on *)

Section Independence.
Context {T : Type} `{Scalar T}.

(** The two tensor results of a call, or the exception it raises. *)
Definition outputs (o : store T * result (tensor T * tensor T * ref))
  : result (tensor T * tensor T) :=
  match o.2 with
  | Ok (a, w, _) => Ok (a, w)
  | Raise e => Raise e
  end.

Lemma step_determines_result (self : MultiheadAttention T) noise
      q1 k1 v1 kpm1 am1 skv1 q2 k2 v2 kpm2 am2 skv2 prev1 prev2 st d1 d2 :
  objects st !! prev1 = Some d1 -> objects st !! prev2 = Some d2 ->
  step self noise q1 k1 v1 kpm1 am1 skv1 d1 = step self noise q2 k2 v2 kpm2 am2 skv2 d2 ->
  let o1 := _recurrent_forward self noise q1 k1 v1 kpm1 am1 skv1 prev1 st in
  let o2 := _recurrent_forward self noise q2 k2 v2 kpm2 am2 skv2 prev2 st in
  o1.2 = o2.2 /\ (is_ok o1.2 = true -> o1 = o2).
Proof.
  intros Hd1 Hd2 Heq o1 o2.
  pose proof (recurrent_forward_step self noise q1 k1 v1 kpm1 am1 skv1 prev1 st d1 Hd1) as H1.
  pose proof (recurrent_forward_step self noise q2 k2 v2 kpm2 am2 skv2 prev2 st d2 Hd2) as H2.
  cbv zeta in H1, H2. fold o1 in H1. fold o2 in H2. rewrite <- Heq in H2.
  destruct (step self noise q1 k1 v1 kpm1 am1 skv1 d1) as [[[[nd calls] a] w]|e].
  - rewrite H1, H2. auto.
  - rewrite H1, H2. split; [reflexivity|discriminate].
Qed.

(** X3. Static mode with the cache present: the value argument is not
    used at all, and the key argument only through its leading size.  Two
    calls that differ in key and value, with keys of one leading size,
    raise the same exception or return the same results and leave the same
    store. *)
Theorem static_cached_call_ignores_key_value (self : MultiheadAttention T) noise
    q k1 v1 k2 v2 kpm am prev st d :
  objects st !! prev = Some d ->
  is_Some (d !! "static_key") ->
  size_at k1 0 = size_at k2 0 ->
  let o1 := _recurrent_forward self noise q k1 v1 kpm am true prev st in
  let o2 := _recurrent_forward self noise q k2 v2 kpm am true prev st in
  o1.2 = o2.2 /\ (is_ok o1.2 = true -> o1 = o2).
Proof.
  intros Hd [sk Hsk] Hsz.
  apply (step_determines_result self noise q k1 v1 kpm am true q k2 v2 kpm am true
           prev prev st d d Hd Hd).
  unfold step. rewrite Hsk. unfold static_cached_step. rewrite Hsz. reflexivity.
Qed.

End Independence.

(** ** Growing mode: the returned state *)

Section Growing.
Context {T : Type} `{Scalar T}.

Lemma lookup_new_state (st : store T) nd calls :
  objects (mkStore (objects st ++ [nd]) calls) !! length (objects st) = Some nd.
Proof. simpl. rewrite lookup_app_r by lia. rewrite Nat.sub_diag. reflexivity. Qed.

(** X4. Growing mode: the dictionary a call returns holds [prev_key] and
    [prev_value] and no static entry.  It holds [prev_key_padding_mask]
    exactly when a [key_padding_mask] was passed: the mask itself when
    [prev_state] has none, otherwise the mask of [prev_state] followed by
    it along dimension 1. *)
Theorem growing_call_returned_state (self : MultiheadAttention T) noise
    q k v kpm am prev st d st' a w ns :
  objects st !! prev = Some d ->
  _recurrent_forward self noise q k v kpm am false prev st = (st', Ok (a, w, ns)) ->
  exists nd, objects st' !! ns = Some nd /\
    is_Some (nd !! "prev_key") /\ is_Some (nd !! "prev_value") /\
    nd !! "static_key" = None /\ nd !! "static_value" = None /\
    match kpm, d !! "prev_key_padding_mask" with
    | None, _ => nd !! "prev_key_padding_mask" = None
    | Some m, None => nd !! "prev_key_padding_mask" = Some m
    | Some m, Some pm =>
        exists m', torch_cat [pm; m] 1 = Ok m' /\ nd !! "prev_key_padding_mask" = Some m'
    end.
Proof.
  intros Hd Hrun.
  apply (recurrent_forward_ok_iff _ _ _ _ _ _ _ _ _ _ _ _ _ _ _ Hd) in Hrun.
  destruct Hrun as (nd & calls & Hstep & -> & ->).
  unfold step in Hstep. apply growing_step_ok in Hstep.
  destruct Hstep as (tgt_len & bsz & e & qw & kw & vw & qb & kb & vb & k1 & v1 & k2 & v2
                     & k3 & v3 & nk & nv & mask & _ & _ & _ & _ & _ & _ & _ & _ & _ & _
                     & Hmask & -> & ->).
  exists (with_mask mask (<["prev_value" := nv]> (<["prev_key" := nk]> ∅))).
  split; [apply lookup_new_state|].
  unfold extend_mask in Hmask.
  destruct kpm as [m|], (d !! "prev_key_padding_mask") as [pm|]; simpl in Hmask.
  - apply result_bind_ok in Hmask. destruct Hmask as (m' & Hcat & [= <-]).
    simpl. simplify_map_eq. eauto 10.
  - injection Hmask as <-. simpl. simplify_map_eq. eauto 10.
  - injection Hmask as <-. simpl. simplify_map_eq. eauto 10.
  - injection Hmask as <-. simpl. simplify_map_eq. eauto 10.
Qed.

(** X5. Growing mode without a [key_padding_mask]: the mask accumulated
    in [prev_state] plays no part.  The call behaves as on a state from
    which [prev_key_padding_mask] has been removed. *)
Theorem growing_call_without_mask_ignores_history (self : MultiheadAttention T) noise
    q k v am prev prev' st d :
  objects st !! prev = Some d ->
  objects st !! prev' = Some (delete "prev_key_padding_mask" d) ->
  let o := _recurrent_forward self noise q k v None am false prev st in
  let o' := _recurrent_forward self noise q k v None am false prev' st in
  o.2 = o'.2 /\ (is_ok o.2 = true -> o = o').
Proof.
  intros Hd Hd'.
  apply (step_determines_result self noise q k v None am false q k v None am false
           prev prev' st _ _ Hd Hd').
  unfold step. rewrite !lookup_delete_ne by discriminate.
  unfold growing_step, extend_mask. reflexivity.
Qed.

End Growing.

(** ** States and modules that make a call raise *)

Section Errors.
Context {T : Type} `{Scalar T}.

Lemma step_raise_fails (self : MultiheadAttention T) noise q k v kpm am skv prev st d e :
  objects st !! prev = Some d ->
  step self noise q k v kpm am skv d = Raise e ->
  (_recurrent_forward self noise q k v kpm am skv prev st).2 = Raise e.
Proof.
  intros Hd Hs.
  pose proof (recurrent_forward_step self noise q k v kpm am skv prev st d Hd) as Hr.
  cbv zeta in Hr. rewrite Hs in Hr. exact Hr.
Qed.

Lemma forward_incremental_result (self : MultiheadAttention T) noise q k v kpm am skv prev st e :
  (_recurrent_forward self noise q k v kpm am skv prev st).2 = Raise e ->
  (forward self noise q k v kpm am skv (Some prev) st).2 = Raise e.
Proof.
  unfold forward. unfold_monad. unfold M_bind.
  destruct (_recurrent_forward self noise q k v kpm am skv prev st) as [s [r|e']];
    simpl; congruence.
Qed.

(** What a successful construction stores. *)
Lemma init_ok_fields rng e n p bias akv azn kd vd (self : MultiheadAttention T) :
  __init__ rng e n p bias akv azn kd vd = Ok self ->
  embed_dim self = e /\ num_heads self = n /\ (head_dim self * n)%Z = e /\
  (0 < e)%Z /\ head_dim self = (e / n)%Z /\
  kdim self = e /\ vdim self = e /\ dropout self = p /\
  _qkv_same_embed_dim self = true /\ add_zero_attn self = false /\ training self = true /\
  q_proj_weight self = None /\ k_proj_weight self = None /\ v_proj_weight self = None /\
  in_proj_weight self
    = Some (build [Z.to_nat (3 * e); Z.to_nat e] (rng "in_proj_weight")) /\
  in_proj_bias self = (if bias then Some (torch_zeros [Z.to_nat (3 * e)]) else None) /\
  out_proj_weight self = build [Z.to_nat e; Z.to_nat e] (rng "out_proj.weight") /\
  out_proj_bias self = (if bias then Some (torch_zeros [Z.to_nat e]) else None) /\
  bias_k self = (if akv then Some (build [1; 1; Z.to_nat e] (rng "bias_k")) else None) /\
  bias_v self = (if akv then Some (build [1; 1; Z.to_nat e] (rng "bias_v")) else None).
Proof.
  unfold __init__. intros Hi.
  apply result_bind_ok in Hi. destruct Hi as (hd & Hfd & Hi).
  apply floordiv_ok in Hfd. destruct Hfd as [Hn ->].
  apply result_bind_ok in Hi. destruct Hi as (sc & Hsc & Hi).
  unfold pow_neg_half in Hsc. destruct (decide ((e / n)%Z = 0%Z)) as [|Hhd]; [discriminate|].
  apply result_bind_ok in Hi. destruct Hi as (u1 & Hdiv & Hi).
  apply assert_ok, bool_decide_eq_true in Hdiv.
  apply result_bind_ok in Hi. destruct Hi as (u2 & Hsame & Hi).
  apply assert_ok in Hsame. rewrite Hsame in Hi. simpl in Hi.
  apply andb_true_iff in Hsame. destruct Hsame as [Hk Hv].
  apply bool_decide_eq_true in Hk, Hv.
  apply result_bind_ok in Hi. destruct Hi as (ws & Hws & Hi).
  apply result_bind_ok in Hws. destruct Hws as (wsh & Hwsh & [= <-]).
  unfold torch_empty in Hwsh. simpl in Hwsh.
  destruct (0 <=? 3 * e)%Z eqn:H3e; [|discriminate].
  destruct (0 <=? e)%Z eqn:He; [|discriminate]. simpl in Hwsh. injection Hwsh as <-.
  apply Z.leb_le in He.
  assert (Hpos : (0 < e)%Z) by (destruct (decide (e = 0%Z)) as [->|]; [|lia];
                                 rewrite Z.div_0_l in Hhd; congruence).
  assert (Hemp : forall dims, Forall (fun x => (0 <= x)%Z) dims ->
                              torch_empty dims = Ok (map Z.to_nat dims))
    by apply torch_empty_nonneg.
  rewrite !Hemp in Hi by (repeat constructor; lia).
  destruct bias, akv; simpl in Hi; rewrite ?Hemp in Hi by (repeat constructor; lia);
    simpl in Hi; apply result_bind_ok in Hi; destruct Hi as (u3 & Hz & [= <-]);
    apply assert_ok, negb_true_iff in Hz; simpl; repeat split; auto.
Qed.

Lemma chunk3_thirds (t : tensor T) n rest :
  shape t = (3 * n) :: rest -> 0 < n ->
  exists a b c, chunk3 t = Ok (a, b, c) /\
    shape a = n :: rest /\ shape b = n :: rest /\ shape c = n :: rest.
Proof.
  intros Hsh Hn. unfold chunk3. rewrite Hsh.
  assert (Hc : (3 * n + 2) / 3 = n).
  { symmetry. apply (Nat.div_unique _ _ _ 2); lia. }
  rewrite Hc.
  destruct (decide (3 * n = 0 \/ 2 * n < 3 * n)) as [_|Hno]; [|lia].
  do 3 eexists. split; [reflexivity|]. simpl.
  repeat split; f_equal; lia.
Qed.

(** X6. A module built without bias cannot decode incrementally: every
    incremental call on it raises.  With a three-dimensional query and a
    key of at least one dimension the exception is the [TypeError] of
    [torch.chunk] applied to the missing [in_proj_bias]. *)
Theorem incremental_call_without_bias_raises rng e n (p : T) akv azn kd vd
    (self : MultiheadAttention T) noise q k v kpm am skv prev st d tgt_len bsz e' s rest :
  __init__ rng e n p false akv azn kd vd = Ok self ->
  objects st !! prev = Some d ->
  shape q = [tgt_len; bsz; e'] -> shape k = s :: rest ->
  (forward self noise q k v kpm am skv (Some prev) st).2 = Raise TypeError.
Proof.
  intros Hi Hd Hq Hk.
  apply init_ok_fields in Hi.
  destruct Hi as (_ & _ & _ & Hpos & _ & _ & _ & _ & Hsame & _ & _ & _ & _ & _ & Hw & Hb & _).
  apply forward_incremental_result. apply (step_raise_fails _ _ _ _ _ _ _ _ _ _ d _ Hd).
  destruct (chunk3_thirds (build [Z.to_nat (3 * e); Z.to_nat e] (rng "in_proj_weight"))
              (Z.to_nat e) [Z.to_nat e]) as (a & b & c & Hch & _).
  { simpl. f_equal. lia. }
  { lia. }
  assert (Hpk : packed_projections self = Raise TypeError).
  { unfold packed_projections. rewrite Hw, Hb. simpl. rewrite Hch. reflexivity. }
  assert (Hs3 : size3 q = Ok (tgt_len, bsz, e')) by (unfold size3; rewrite Hq; reflexivity).
  assert (Hs0 : size_at k 0 = Ok s) by (unfold size_at; rewrite Hk; reflexivity).
  unfold step, static_cached_step, static_first_step, growing_step, packed_only.
  rewrite Hs3, Hs0, Hsame, Hpk.
  destruct skv; [destruct (d !! "static_key")|]; reflexivity.
Qed.

(** X7. A state that holds one half of a cache pair is rejected: in
    static mode [static_key] without [static_value], in growing mode
    [prev_key] without [prev_value], make the call raise. *)
Theorem half_cache_raises (self : MultiheadAttention T) noise q k v kpm am (skv : bool)
    prev st d :
  objects st !! prev = Some d ->
  (if skv then is_Some (d !! "static_key") /\ d !! "static_value" = None
   else is_Some (d !! "prev_key") /\ d !! "prev_value" = None) ->
  fails (forward self noise q k v kpm am skv (Some prev) st).
Proof.
  intros Hd Hhalf.
  destruct (step self noise q k v kpm am skv d) as [[[[nd calls] a] w]|e] eqn:Hstep.
  - exfalso. unfold step in Hstep. destruct skv.
    + destruct Hhalf as [[sk Hsk] Hsv]. rewrite Hsk, Hsv in Hstep.
      unfold static_cached_step in Hstep. repeat result_inv1.
      all: match goal with Hn : not_none None = Ok _ |- _ => discriminate Hn end.
    + destruct Hhalf as [[pk Hpk] Hpv]. apply growing_step_ok in Hstep.
      destruct Hstep as (tgt_len & bsz & e & qw & kw & vw & qb & kb & vb & k1 & v1 & k2 & v2
                         & k3 & v3 & nk & nv & mask & _ & _ & _ & _ & _ & _ & _ & Hv & _).
      rewrite Hpk in Hv. destruct Hv as (pv' & Hpv' & _). congruence.
  - exists e. apply forward_incremental_result.
    apply (step_raise_fails _ _ _ _ _ _ _ _ _ _ d _ Hd Hstep).
Qed.

(** X8. Separate projection weights are not implemented for incremental
    decoding: on a module whose [_qkv_same_embed_dim] is false, a call with
    a three-dimensional query and a key of at least one dimension raises
    [NotImplementedError]. *)
Theorem separate_weights_not_implemented (self : MultiheadAttention T) noise
    q k v kpm am skv prev st d tgt_len bsz e s rest :
  _qkv_same_embed_dim self = false ->
  objects st !! prev = Some d ->
  shape q = [tgt_len; bsz; e] -> shape k = s :: rest ->
  (forward self noise q k v kpm am skv (Some prev) st).2 = Raise NotImplementedError.
Proof.
  intros Hsame Hd Hq Hk.
  apply forward_incremental_result. apply (step_raise_fails _ _ _ _ _ _ _ _ _ _ d _ Hd).
  assert (Hs3 : size3 q = Ok (tgt_len, bsz, e)) by (unfold size3; rewrite Hq; reflexivity).
  assert (Hs0 : size_at k 0 = Ok s) by (unfold size_at; rewrite Hk; reflexivity).
  unfold step, static_cached_step, static_first_step, growing_step, packed_only.
  rewrite Hs3, Hs0, Hsame.
  destruct skv; [destruct (d !! "static_key")|]; reflexivity.
Qed.

End Errors.

(** ** Shapes through the kernels *)

Section KernelShapes.
Context {T : Type} `{Scalar T}.

Definition resolve_dim (q : nat) (d : Z) : nat :=
  if decide (d = (-1)%Z) then q else Z.to_nat d.

Lemma numel_resolve dims q :
  count_infer dims = 1 -> numel (map (resolve_dim q) dims) = known_numel dims * q.
Proof.
  induction dims as [|d dims IH]; simpl; [discriminate|].
  unfold resolve_dim at 1. destruct (decide (d = (-1)%Z)) as [->|Hd]; simpl.
  - intros Hc. assert (Hc0 : count_infer dims = 0) by lia.
    clear IH Hc. 
    assert (Hk : numel (map (resolve_dim q) dims) = known_numel dims).
    { induction dims as [|d' dims IH]; simpl in *; [reflexivity|].
      unfold resolve_dim at 1.
      destruct (decide (d' = (-1)%Z)); simpl in *; [lia|]. rewrite IH by lia. reflexivity. }
    rewrite Hk. lia.
  - intros Hc. rewrite IH by lia. lia.
Qed.

Lemma numel_known dims :
  count_infer dims = 0 -> numel (map Z.to_nat dims) = known_numel dims.
Proof.
  induction dims as [|d dims IH]; simpl; [reflexivity|].
  destruct (decide (d = (-1)%Z)); simpl; [lia|]. intros Hc. rewrite IH by lia. reflexivity.
Qed.

(** A successful [view] keeps the data and the number of elements. *)
Lemma view_ok (t t' : tensor T) dims :
  view t dims = Ok t' ->
  data t' = data t /\ numel (shape t') = numel (shape t) /\
  Forall (fun d => (-1 <= d)%Z) dims /\
  ((count_infer dims = 0 /\ shape t' = map Z.to_nat dims) \/
   (count_infer dims = 1 /\ 0 < known_numel dims /\
    numel (shape t) mod known_numel dims = 0 /\
    shape t' = map (resolve_dim (numel (shape t) / known_numel dims)) dims)).
Proof.
  unfold view. destruct (forallb _ dims) eqn:Hall; [|discriminate].
  assert (HF : Forall (fun d => (-1 <= d)%Z) dims).
  { apply Forall_forall. intros x Hx. rewrite forallb_forall in Hall.
    apply Z.leb_le, Hall, list_elem_of_In, Hx. }
  destruct (count_infer dims) as [|[|c]] eqn:Hc.
  - destruct (decide (known_numel dims = numel (shape t))) as [Hk|]; [|discriminate].
    intros [= <-]. simpl. rewrite numel_known by exact Hc. auto 10.
  - destruct (decide (0 < known_numel dims /\ numel (shape t) mod known_numel dims = 0))
      as [[Hp Hm]|]; [|discriminate].
    intros [= <-]. simpl. split; [reflexivity|]. split.
    + change (fun d => if decide (d = (-1)%Z) then _ else Z.to_nat d)
        with (resolve_dim (numel (shape t) / known_numel dims)).
      rewrite numel_resolve by exact Hc.
      pose proof (Nat.div_mod_eq (numel (shape t)) (known_numel dims)). lia.
    + split; [exact HF|]. right. auto 10.
  - discriminate.
Qed.

Lemma transpose_ok (t t' : tensor T) d0 d1 :
  transpose t d0 d1 = Ok t' ->
  shape t' = swap_at d0 d1 (shape t) /\ wf t'.
Proof.
  unfold transpose. destruct (decide _); [|discriminate].
  intros [= <-]. split; [reflexivity|apply wf_build].
Qed.

Lemma F_linear_ok (x w : tensor T) b y :
  F_linear x w b = Ok y ->
  exists out inn, shape w = [out; inn] /\ last (shape x) = Some inn /\
                  shape y = removelast (shape x) ++ [out] /\ wf y.
Proof.
  unfold F_linear. destruct (shape w) as [|out [|inn [|]]]; try discriminate.
  destruct (last (shape x)) as [xin|]; [|discriminate].
  destruct (bool_decide (xin = inn)) eqn:Hx; [|discriminate].
  apply bool_decide_eq_true in Hx. subst xin.
  destruct (bias_fits b out); [|discriminate].
  simpl. intros [= <-]. exists out, inn. simpl. auto using wf_build.
Qed.

Lemma torch_cat2_ok (a b c : tensor T) dim :
  torch_cat [a; b] dim = Ok c ->
  dim < length (shape a) /\
  <[dim := 0]> (shape b) = <[dim := 0]> (shape a) /\
  shape c = <[dim := dim_size a dim + dim_size b dim]> (shape a) /\ wf c.
Proof.
  unfold torch_cat. destruct (decide (dim < length (shape a))) as [Hd|]; [|discriminate].
  simpl. rewrite bool_decide_eq_true_2 by reflexivity. simpl.
  destruct (bool_decide _) eqn:Hb; [|discriminate].
  apply bool_decide_eq_true in Hb. simpl.
  intros [= <-]. simpl. rewrite Nat.add_0_r. auto using wf_build.
Qed.

(** *** Heads and the cache layout *)

Definition BH (self : MultiheadAttention T) (bsz : nat) : nat :=
  Z.to_nat (bh_dim self bsz).
Definition HD (self : MultiheadAttention T) : nat := Z.to_nat (head_dim self).
Definition NH (self : MultiheadAttention T) : nat := Z.to_nat (num_heads self).

Lemma count_infer_known (d : Z) :
  (if decide (d = (-1)%Z) then 1 else 0) = 0 -> d <> (-1)%Z.
Proof. destruct (decide (d = (-1)%Z)); [discriminate|auto]. Qed.

(** The three shapes of [view] that the module uses, with one inferred
    dimension. *)
Lemma view_infer_0 (t t' : tensor T) (b c : Z) :
  view t [(-1)%Z; b; c] = Ok t' ->
  (0 <= b)%Z /\ (0 <= c)%Z /\ 0 < Z.to_nat b * Z.to_nat c /\
  numel (shape t) mod (Z.to_nat b * Z.to_nat c) = 0 /\
  data t' = data t /\
  shape t' = [numel (shape t) / (Z.to_nat b * Z.to_nat c); Z.to_nat b; Z.to_nat c].
Proof.
  intros Hv. apply view_ok in Hv. destruct Hv as (Hd & _ & HF & Hcase).
  inversion HF as [|? ? _ HF1]; subst. inversion HF1 as [|? ? Hb HF2]; subst.
  inversion HF2 as [|? ? Hc _]; subst.
  unfold resolve_dim in Hcase. simpl in Hcase.
  destruct (decide (b = (-1)%Z)), (decide (c = (-1)%Z));
    destruct Hcase as [[Hn _]|(Hn & Hp & Hm & Hx)]; simpl in Hn; try lia.
  match type of Hp with 0 < ?k => replace k with (Z.to_nat b * Z.to_nat c) in * by lia end.
  repeat split; try lia; assumption.
Qed.

Lemma view_infer_1 (t t' : tensor T) (a c : Z) :
  view t [a; (-1)%Z; c] = Ok t' ->
  (0 <= a)%Z /\ (0 <= c)%Z /\ 0 < Z.to_nat a * Z.to_nat c /\
  numel (shape t) mod (Z.to_nat a * Z.to_nat c) = 0 /\
  data t' = data t /\
  shape t' = [Z.to_nat a; numel (shape t) / (Z.to_nat a * Z.to_nat c); Z.to_nat c].
Proof.
  intros Hv. apply view_ok in Hv. destruct Hv as (Hd & _ & HF & Hcase).
  inversion HF as [|? ? Ha HF1]; subst. inversion HF1 as [|? ? _ HF2]; subst.
  inversion HF2 as [|? ? Hc _]; subst.
  unfold resolve_dim in Hcase. simpl in Hcase.
  destruct (decide (a = (-1)%Z)), (decide (c = (-1)%Z));
    destruct Hcase as [[Hn _]|(Hn & Hp & Hm & Hx)]; simpl in Hn; try lia.
  match type of Hp with 0 < ?k => replace k with (Z.to_nat a * Z.to_nat c) in * by lia end.
  repeat split; try lia; assumption.
Qed.

Lemma view_infer_2 (t t' : tensor T) (a b c : Z) :
  view t [a; b; (-1)%Z; c] = Ok t' ->
  (0 <= a)%Z /\ (0 <= b)%Z /\ (0 <= c)%Z /\
  0 < Z.to_nat a * Z.to_nat b * Z.to_nat c /\
  numel (shape t) mod (Z.to_nat a * Z.to_nat b * Z.to_nat c) = 0 /\
  data t' = data t /\
  shape t' = [Z.to_nat a; Z.to_nat b;
              numel (shape t) / (Z.to_nat a * Z.to_nat b * Z.to_nat c); Z.to_nat c].
Proof.
  intros Hv. apply view_ok in Hv. destruct Hv as (Hd & _ & HF & Hcase).
  inversion HF as [|? ? Ha HF1]; subst. inversion HF1 as [|? ? Hb HF2]; subst.
  inversion HF2 as [|? ? _ HF3]; subst. inversion HF3 as [|? ? Hc _]; subst.
  unfold resolve_dim in Hcase. simpl in Hcase.
  destruct (decide (a = (-1)%Z)), (decide (b = (-1)%Z)), (decide (c = (-1)%Z));
    destruct Hcase as [[Hn _]|(Hn & Hp & Hm & Hx)]; simpl in Hn; try lia.
  match type of Hp with 0 < ?k =>
    replace k with (Z.to_nat a * Z.to_nat b * Z.to_nat c) in * by lia end.
  repeat split; try lia; assumption.
Qed.

Lemma split_heads_ok (self : MultiheadAttention T) bsz x y :
  split_heads self bsz x = Ok y ->
  (0 <= bh_dim self bsz)%Z /\ (0 <= head_dim self)%Z /\
  0 < BH self bsz * HD self /\
  numel (shape x) mod (BH self bsz * HD self) = 0 /\
  shape y = [BH self bsz; numel (shape x) / (BH self bsz * HD self); HD self] /\ wf y.
Proof.
  unfold split_heads, contiguous. intros Hs.
  apply result_bind_ok in Hs. destruct Hs as (x' & Hv & Ht).
  apply view_infer_0 in Hv. destruct Hv as (Hb & Hc & Hp & Hm & _ & Hx).
  apply transpose_ok in Ht. destruct Ht as [Hsh Hwf].
  rewrite Hx in Hsh. unfold BH, HD. auto 10.
Qed.

Lemma view_infer_1_intro (t : tensor T) (a c : Z) :
  (0 <= a)%Z -> (0 <= c)%Z -> 0 < Z.to_nat a * Z.to_nat c ->
  numel (shape t) mod (Z.to_nat a * Z.to_nat c) = 0 ->
  view t [a; (-1)%Z; c]
  = Ok (mkTensor [Z.to_nat a; numel (shape t) / (Z.to_nat a * Z.to_nat c); Z.to_nat c]
                 (data t)).
Proof.
  intros Ha Hc Hp Hm. unfold view.
  assert (Hall : forallb (fun d => (-1 <=? d)%Z) [a; (-1)%Z; c] = true).
  { simpl. rewrite !andb_true_iff. repeat split; try apply Z.leb_le; lia. }
  rewrite Hall. simpl.
  destruct (decide (a = (-1)%Z)) as [|_]; [lia|].
  destruct (decide (c = (-1)%Z)) as [|_]; [lia|]. simpl.
  replace (Z.to_nat a * (Z.to_nat c * 1 + 0)) with (Z.to_nat a * Z.to_nat c) by lia.
  destruct (decide _) as [_|Hno]; [reflexivity|]. exfalso. apply Hno. auto.
Qed.

Lemma as_cache_ok (self : MultiheadAttention T) bsz x y :
  as_cache self bsz x = Ok y ->
  (0 <= num_heads self)%Z /\ (0 <= head_dim self)%Z /\
  0 < bsz * NH self * HD self /\
  numel (shape x) mod (bsz * NH self * HD self) = 0 /\
  data y = data x /\
  shape y = [bsz; NH self; numel (shape x) / (bsz * NH self * HD self); HD self].
Proof.
  unfold as_cache, contiguous, zdim. intros Hv.
  apply view_infer_2 in Hv. rewrite Nat2Z.id in Hv.
  destruct Hv as (_ & Hn & Hh & Hp & Hm & Hd & Hsh). unfold NH, HD. auto 10.
Qed.

Lemma BH_eq (self : MultiheadAttention T) bsz :
  (0 <= num_heads self)%Z -> BH self bsz = bsz * NH self.
Proof.
  intros Hn. unfold BH, NH, bh_dim, zdim.
  rewrite Z2Nat.inj_mul by lia. rewrite Nat2Z.id. reflexivity.
Qed.

Lemma of_cache_ok (self : MultiheadAttention T) bsz x y :
  of_cache self bsz x = Ok y ->
  0 < BH self bsz * HD self /\
  numel (shape x) mod (BH self bsz * HD self) = 0 /\
  data y = data x /\
  shape y = [BH self bsz; numel (shape x) / (BH self bsz * HD self); HD self].
Proof.
  unfold of_cache, contiguous. intros Hv.
  apply view_infer_1 in Hv.
  destruct Hv as (_ & _ & Hp & Hm & Hd & Hsh). unfold BH, HD. auto.
Qed.

Lemma tensor_eta (t : tensor T) : t = mkTensor (shape t) (data t).
Proof. destruct t; reflexivity. Qed.

(** The cache layout round-trips: what [as_cache] stores, [of_cache]
    reads back unchanged. *)
Lemma of_cache_as_cache (self : MultiheadAttention T) bsz x y c :
  split_heads self bsz x = Ok y ->
  as_cache self bsz y = Ok c ->
  of_cache self bsz c = Ok y.
Proof.
  intros Hs Ha.
  apply split_heads_ok in Hs. destruct Hs as (Hb & Hh & Hp & Hm & Hsh & _).
  apply as_cache_ok in Ha. destruct Ha as (Hn & _ & Hp' & Hm' & Hd & Hsh').
  assert (Hnum : numel (shape c) = numel (shape y)).
  { rewrite Hsh'. simpl. pose proof (Nat.div_mod_eq (numel (shape y)) (bsz * NH self * HD self)).
    lia. }
  assert (HnumY : numel (shape y)
                  = BH self bsz * HD self * (numel (shape x) / (BH self bsz * HD self))).
  { rewrite Hsh. simpl. lia. }
  unfold of_cache, contiguous.
  rewrite view_infer_1_intro; fold (BH self bsz) (HD self); try assumption.
  - rewrite (tensor_eta y). simpl. rewrite Hd, Hnum, HnumY, Hsh. simpl.
    do 3 f_equal. rewrite Nat.mul_comm. rewrite Nat.div_mul by lia. reflexivity.
  - rewrite Hnum, HnumY. rewrite Nat.mul_comm. apply Nat.Div0.mod_mul.
Qed.

End KernelShapes.

(** ** The static cache is a cache *)

Section Reuse.
Context {T : Type} `{Scalar T}.

Definition step_outputs
    (r : result (gmap string (tensor T) * list projection * tensor T * tensor T))
  : result (tensor T * tensor T) :=
  match r with
  | Ok (_, _, a, w) => Ok (a, w)
  | Raise e => Raise e
  end.

Lemma outputs_step (self : MultiheadAttention T) noise q k v kpm am skv prev st d :
  objects st !! prev = Some d ->
  outputs (_recurrent_forward self noise q k v kpm am skv prev st)
  = step_outputs (step self noise q k v kpm am skv d).
Proof.
  intros Hd.
  pose proof (recurrent_forward_step self noise q k v kpm am skv prev st d Hd) as Hr.
  cbv zeta in Hr. unfold outputs.
  destruct (step self noise q k v kpm am skv d) as [[[[nd calls] a] w]|e]; simpl.
  - rewrite Hr. reflexivity.
  - rewrite Hr. reflexivity.
Qed.

(** X9. Reading the static cache gives what projecting again would give.
    Let a first static call on a state without cache return its state
    [ns].  A later call given [ns], with a query of the same batch size
    and any key and value whose key has the leading size of the original
    key, returns the same two tensors (or raises the same exception) as the
    call that is given the original key and value and no cache. *)
Theorem static_cache_reuse_matches_projection (self : MultiheadAttention T)
    noise1 noise q1 q2 k v k' v' kpm1 am1 kpm am p1 st1 st2 d1 a1 w1 ns
    t1 t2 bsz e1 e2 :
  objects st1 !! p1 = Some d1 ->
  d1 !! "static_key" = None ->
  _recurrent_forward self noise1 q1 k v kpm1 am1 true p1 st1 = (st2, Ok (a1, w1, ns)) ->
  shape q1 = [t1; bsz; e1] -> shape q2 = [t2; bsz; e2] ->
  size_at k' 0 = size_at k 0 ->
  outputs (_recurrent_forward self noise q2 k' v' kpm am true ns st2)
  = outputs (_recurrent_forward self noise q2 k v kpm am true p1 st2).
Proof.
  intros Hd1 Hsk Hrun Hq1 Hq2 Hsz.
  apply (recurrent_forward_ok_iff _ _ _ _ _ _ _ _ _ _ _ _ _ _ _ Hd1) in Hrun.
  destruct Hrun as (nd & calls & Hstep & -> & ->).
  unfold step in Hstep. rewrite Hsk in Hstep. apply static_first_step_ok in Hstep.
  destruct Hstep as (tgt & bsz' & e & qw & kw & vw & qb & kb & vb & k1 & v1 & k2 & v2
                     & sk & sv & Hs3 & Hpk & Hk1 & Hv1 & Hk2 & Hv2 & Hsk' & Hsv' & -> & ->).
  unfold size3 in Hs3. rewrite Hq1 in Hs3. injection Hs3 as <- <- <-.
  rewrite (outputs_step _ _ _ _ _ _ _ _ _ _ _ (lookup_new_state st1 _ _)).
  assert (Hp1 : objects (mkStore (objects st1 ++ [<["static_value":=sv]> (<["static_key":=sk]> ∅)])
                                 (linear_calls st1 ++ [ProjQuery; ProjKey; ProjValue; ProjOut]))
                !! p1 = Some d1).
  { simpl. apply lookup_app_l_Some. exact Hd1. }
  rewrite (outputs_step _ _ _ _ _ _ _ _ _ _ _ Hp1).
  unfold step. rewrite Hsk. simplify_map_eq.
  unfold static_cached_step, static_first_step.
  assert (Hs3 : size3 q2 = Ok (t2, bsz, e2)) by (unfold size3; rewrite Hq2; reflexivity).
  rewrite Hs3, Hsz. simpl.
  destruct (size_at k 0) as [src|]; [simpl|reflexivity].
  destruct (packed_only self); [simpl|reflexivity].
  rewrite Hpk. simpl.
  destruct (F_linear q2 qw (Some qb)) as [q'|]; [simpl|reflexivity].
  rewrite Hk1. simpl. rewrite Hv1. simpl.
  destruct (split_heads self bsz (mul_scalar q' (scaling self))) as [q''|]; [simpl|reflexivity].
  rewrite Hk2. simpl. rewrite Hv2. simpl. rewrite Hsk'. simpl. rewrite Hsv'. simpl.
  rewrite (of_cache_as_cache _ _ _ _ _ Hk2 Hsk'). simpl.
  rewrite (of_cache_as_cache _ _ _ _ _ Hv2 Hsv'). simpl.
  destruct (attention_core self noise t2 bsz src q'' k2 v2 am (Ok kpm)) as [[[a' w'] m]|];
    reflexivity.
Qed.

End Reuse.

(** ** Growing mode: the history grows *)

Section History.
Context {T : Type} `{Scalar T}.

(** One channel (key or value) of a growing step: from the raw input of
    [S] positions to the cache entry. *)
Lemma channel_shape (self : MultiheadAttention T) bsz E S ek Lp
      (x w b x1 x2 x3 nx : tensor T) (prev : option (tensor T)) ein :
  shape x = [S; bsz; ek] ->
  shape w = [E; ein] ->
  NH self * HD self = E ->
  F_linear x w (Some b) = Ok x1 ->
  split_heads self bsz x1 = Ok x2 ->
  extend_history self bsz prev x2 = Ok x3 ->
  as_cache self bsz x3 = Ok nx ->
  match prev with
  | Some p => shape p = [bsz; NH self; Lp; HD self]
  | None => Lp = 0
  end ->
  shape nx = [bsz; NH self; Lp + S; HD self].
Proof.
  intros Hx Hw HE Hlin Hsplit Hext Hcache Hprev.
  apply F_linear_ok in Hlin. destruct Hlin as (out & inn & Hw' & _ & Hx1 & _).
  rewrite Hw in Hw'. injection Hw' as <- <-.
  rewrite Hx in Hx1. simpl in Hx1.
  apply split_heads_ok in Hsplit. destruct Hsplit as (_ & _ & Hp & _ & Hx2 & _).
  apply as_cache_ok in Hcache. destruct Hcache as (Hn & _ & Hp' & _ & _ & Hnx).
  pose proof (BH_eq self bsz Hn) as HBH.
  assert (HL : numel (shape x1) / (BH self bsz * HD self) = S).
  { rewrite Hx1. simpl. rewrite HBH.
    replace (S * (bsz * (E * 1))) with (S * (bsz * NH self * HD self)) by nia.
    apply Nat.div_mul. lia. }
  rewrite HL in Hx2.
  assert (Hx3 : shape x3 = [BH self bsz; Lp + S; HD self]).
  { destruct prev as [p|]; simpl in Hext.
    - apply result_bind_ok in Hext. destruct Hext as (pv & Hpv & Hcat).
      apply of_cache_ok in Hpv. destruct Hpv as (_ & _ & _ & Hpsh).
      apply torch_cat2_ok in Hcat. destruct Hcat as (_ & _ & Hc & _).
      rewrite Hc. unfold dim_size. rewrite Hpsh, Hx2. simpl.
      rewrite Hprev. simpl. rewrite HBH.
      replace (bsz * (NH self * (Lp * (HD self * 1)))) with (Lp * (bsz * NH self * HD self)) by lia.
      rewrite Nat.div_mul by lia. reflexivity.
    - injection Hext as <-. subst Lp. exact Hx2. }
  rewrite Hnx, Hx3. simpl. rewrite HBH.
  replace (bsz * NH self * ((Lp + S) * (HD self * 1)))
    with ((Lp + S) * (bsz * NH self * HD self)) by lia.
  rewrite Nat.div_mul by lia. reflexivity.
Qed.

Lemma packed_projections_shapes (self : MultiheadAttention T) w E ein qw kw vw qb kb vb :
  in_proj_weight self = Some w -> shape w = [3 * E; ein] -> 0 < E ->
  packed_projections self = Ok (qw, kw, vw, (qb, kb, vb)) ->
  shape qw = [E; ein] /\ shape kw = [E; ein] /\ shape vw = [E; ein].
Proof.
  intros Hw Hsh HE Hp. unfold packed_projections in Hp. rewrite Hw in Hp. simpl in Hp.
  destruct (chunk3_thirds w E [ein] Hsh HE) as (a & b & c & Hch & Ha & Hb & Hc).
  rewrite Hch in Hp. simpl in Hp.
  apply result_bind_ok in Hp. destruct Hp as (bs & _ & [= <- <- <- _]). auto.
Qed.

Lemma init_geometry rng e n p bias akv azn kd vd (self : MultiheadAttention T) :
  __init__ rng e n p bias akv azn kd vd = Ok self ->
  (0 <= num_heads self)%Z -> (0 <= head_dim self)%Z ->
  NH self * HD self = Z.to_nat e /\ 0 < Z.to_nat e.
Proof.
  intros Hi Hn Hh. apply init_ok_fields in Hi.
  destruct Hi as (_ & Hnum & Hmul & Hpos & _). unfold NH, HD.
  rewrite <- Z2Nat.inj_mul by lia. rewrite Hnum in *. rewrite Z.mul_comm, Hmul. lia.
Qed.

(** X10. Growing mode on a constructed module: a call with a key and a
    value of [S] positions extends the cached history by [S] positions.
    If [prev_state] caches [Lp] positions, shape (bsz, heads, Lp,
    head_dim), the returned state caches [Lp + S]; from a state without
    cache it caches [S]. *)
Theorem growing_call_extends_history rng e n p bias akv azn kd vd
    (self : MultiheadAttention T) noise q k v kpm am prev st d st' a w ns
    tgt_len bsz eq S ek ev Lp :
  __init__ rng e n p bias akv azn kd vd = Ok self ->
  objects st !! prev = Some d ->
  shape q = [tgt_len; bsz; eq] -> shape k = [S; bsz; ek] -> shape v = [S; bsz; ev] ->
  match d !! "prev_key" with
  | Some pk => shape pk = [bsz; Z.to_nat n; Lp; Z.to_nat (e / n)] /\
               forall pv, d !! "prev_value" = Some pv ->
                          shape pv = [bsz; Z.to_nat n; Lp; Z.to_nat (e / n)]
  | None => Lp = 0
  end ->
  _recurrent_forward self noise q k v kpm am false prev st = (st', Ok (a, w, ns)) ->
  exists nd nk nv, objects st' !! ns = Some nd /\
    nd !! "prev_key" = Some nk /\ nd !! "prev_value" = Some nv /\
    shape nk = [bsz; Z.to_nat n; Lp + S; Z.to_nat (e / n)] /\
    shape nv = [bsz; Z.to_nat n; Lp + S; Z.to_nat (e / n)].
Proof.
  intros Hi Hd Hq Hk Hv Hprev Hrun.
  apply (recurrent_forward_ok_iff _ _ _ _ _ _ _ _ _ _ _ _ _ _ _ Hd) in Hrun.
  destruct Hrun as (nd & calls & Hstep & -> & ->).
  unfold step in Hstep. apply growing_step_ok in Hstep.
  destruct Hstep as (tgt' & bsz' & e' & qw & kw & vw & qb & kb & vb & k1 & v1 & k2 & v2
                     & k3 & v3 & nk & nv & mask & Hs3 & Hpk & Hk1 & Hv1 & Hk2 & Hv2 & Hk3
                     & Hv3 & Hnk & Hnv & _ & -> & ->).
  unfold size3 in Hs3. rewrite Hq in Hs3. injection Hs3 as <- <- <-.
  pose proof (init_ok_fields _ _ _ _ _ _ _ _ _ _ Hi)
    as (_ & Hnum & _ & Hpos & Hhd & _ & _ & _ & _ & _ & _ & _ & _ & _ & Hw & _).
  destruct (as_cache_ok _ _ _ _ Hnk) as (Hn0 & Hh0 & _).
  destruct (init_geometry _ _ _ _ _ _ _ _ _ _ Hi Hn0 Hh0) as [HE HEpos].
  destruct (packed_projections_shapes self _ (Z.to_nat e) (Z.to_nat e) qw kw vw qb kb vb Hw)
    as (_ & Hkw & Hvw); [simpl; f_equal; lia | exact HEpos | exact Hpk |].
  assert (HNH : Z.to_nat n = NH self) by (unfold NH; congruence).
  assert (HHD : Z.to_nat (e / n) = HD self) by (unfold HD; congruence).
  rewrite HNH, HHD in *.
  exists (with_mask mask (<["prev_value" := nv]> (<["prev_key" := nk]> ∅))), nk, nv.
  split; [apply lookup_new_state|].
  assert (Hkeys : forall m, with_mask m (<["prev_value" := nv]> (<["prev_key" := nk]> ∅))
                            !! "prev_key" = Some nk /\
                            with_mask m (<["prev_value" := nv]> (<["prev_key" := nk]> ∅))
                            !! "prev_value" = Some nv).
  { intros [m|]; simpl; simplify_map_eq; auto. }
  destruct (Hkeys mask) as [-> ->]. split; [reflexivity|]. split; [reflexivity|].
  split.
  - apply (channel_shape self bsz (Z.to_nat e) S ek Lp k kw kb k1 k2 k3 nk
             (d !! "prev_key") (Z.to_nat e)); try assumption.
    destruct (d !! "prev_key"); [tauto|assumption].
  - destruct (d !! "prev_key") as [pk|] eqn:Hdpk.
    + destruct Hv3 as (pv' & Hpv' & Hv3). destruct Hprev as [_ Hpvsh].
      apply (channel_shape self bsz (Z.to_nat e) S ev Lp v vw vb v1 v2 v3 nv
               (d !! "prev_value") (Z.to_nat e)); try assumption.
      rewrite Hpv'. apply Hpvsh. exact Hpv'.
    + subst v3.
      apply (channel_shape self bsz (Z.to_nat e) S ev Lp v vw vb v1 v2 v2 nv
               None (Z.to_nat e)); try assumption. reflexivity.
Qed.

End History.

(** ** The attention output *)

Section Output.
Context {T : Type} `{Scalar T}.

Lemma attention_core_ok (self : MultiheadAttention T) noise tgt_len bsz src_len
      q k v am pad attn w mask :
  attention_core self noise tgt_len bsz src_len q k v am pad = Ok (attn, w, mask) ->
  tgt_len <= 1 /\
  exists a3 x, view (contiguous a3) [zdim tgt_len; zdim bsz; embed_dim self] = Ok x /\
               out_proj self x = Ok attn.
Proof.
  unfold attention_core. intros Hc. repeat result_inv1.
  all: split; [lia|eauto].
Qed.

Lemma step_ok_core (self : MultiheadAttention T) noise q k v kpm am skv d nd calls a w :
  step self noise q k v kpm am skv d = Ok (nd, calls, a, w) ->
  exists tgt_len bsz e src_len q' k' v' pad mask,
    size3 q = Ok (tgt_len, bsz, e) /\
    attention_core self noise tgt_len bsz src_len q' k' v' am pad = Ok (a, w, mask).
Proof.
  unfold step, static_cached_step, static_first_step, growing_step. intros Hs.
  repeat result_inv1.
  all: repeat eexists; eauto.
Qed.

(** X11. On a constructed module, a call that returns has a query of at
    most one time step and returns an attention output of shape
    (tgt_len, bsz, embed_dim). *)
Theorem incremental_output_shape rng e n p bias akv azn kd vd
    (self : MultiheadAttention T) noise q k v kpm am skv prev st d st' a w ns
    tgt_len bsz eq :
  __init__ rng e n p bias akv azn kd vd = Ok self ->
  objects st !! prev = Some d ->
  shape q = [tgt_len; bsz; eq] ->
  _recurrent_forward self noise q k v kpm am skv prev st = (st', Ok (a, w, ns)) ->
  tgt_len <= 1 /\ shape a = [tgt_len; bsz; Z.to_nat e].
Proof.
  intros Hi Hd Hq Hrun.
  apply (recurrent_forward_ok_iff _ _ _ _ _ _ _ _ _ _ _ _ _ _ _ Hd) in Hrun.
  destruct Hrun as (nd & calls & Hstep & -> & ->).
  apply step_ok_core in Hstep.
  destruct Hstep as (tgt' & bsz' & e' & src & q' & k' & v' & pad & mask & Hs3 & Hcore).
  unfold size3 in Hs3. rewrite Hq in Hs3. injection Hs3 as <- <- <-.
  apply attention_core_ok in Hcore. destruct Hcore as (Hle & a3 & x & Hview & Hout).
  split; [exact Hle|].
  pose proof (init_ok_fields _ _ _ _ _ _ _ _ _ _ Hi)
    as (Hemb & _ & _ & Hpos & _ & _ & _ & _ & _ & _ & _ & _ & _ & _ & _ & _ & How & _).
  apply view_ok in Hview. destruct Hview as (_ & _ & _ & Hcase).
  rewrite Hemb in Hcase. unfold zdim in Hcase. simpl in Hcase.
  assert (Hx : shape x = [tgt_len; bsz; Z.to_nat e]).
  { destruct (decide (Z.of_nat tgt_len = (-1)%Z)); [lia|].
    destruct (decide (Z.of_nat bsz = (-1)%Z)); [lia|].
    destruct (decide (e = (-1)%Z)); [lia|].
    destruct Hcase as [[_ Hx]|[Hc _]]; [|simpl in Hc; lia].
    rewrite Hx, !Nat2Z.id. reflexivity. }
  unfold out_proj in Hout. apply F_linear_ok in Hout.
  destruct Hout as (out & inn & Hw & _ & Ha & _).
  rewrite How in Hw. simpl in Hw. injection Hw as <- <-.
  rewrite Ha, Hx. reflexivity.
Qed.

End Output.

(** ** Passing states on in static mode *)

Section Threading.
Context {T : Type} `{Scalar T}.

(** X12. The static cache is not carried forward.  When a static call
    that found the cache returns, the state it returns is empty; a static
    call that is given that state finds no cache, evaluates the key and
    value projections again and returns a state that holds the cache. *)
Theorem static_cache_not_carried_forward (self : MultiheadAttention T)
    noise1 noise2 q1 k1 v1 kpm1 am1 q2 k2 v2 kpm2 am2 prev st d
    st1 a1 w1 ns1 st2 a2 w2 ns2 :
  objects st !! prev = Some d ->
  is_Some (d !! "static_key") ->
  _recurrent_forward self noise1 q1 k1 v1 kpm1 am1 true prev st = (st1, Ok (a1, w1, ns1)) ->
  _recurrent_forward self noise2 q2 k2 v2 kpm2 am2 true ns1 st1 = (st2, Ok (a2, w2, ns2)) ->
  objects st1 !! ns1 = Some ∅ /\
  linear_calls st2
  = linear_calls st ++ [ProjQuery; ProjOut] ++ [ProjQuery; ProjKey; ProjValue; ProjOut] /\
  exists sk sv,
    objects st2 !! ns2 = Some (<["static_value" := sv]> (<["static_key" := sk]> ∅)).
Proof.
  intros Hd [sk Hsk] Hrun1 Hrun2.
  apply (recurrent_forward_ok_iff _ _ _ _ _ _ _ _ _ _ _ _ _ _ _ Hd) in Hrun1.
  destruct Hrun1 as (nd & calls & Hstep & -> & ->).
  unfold step in Hstep. rewrite Hsk in Hstep.
  apply static_cached_step_ok in Hstep. destruct Hstep as [-> ->].
  pose proof (lookup_new_state st ∅ (linear_calls st ++ [ProjQuery; ProjOut])) as Hns.
  split; [exact Hns|].
  apply (recurrent_forward_ok_iff _ _ _ _ _ _ _ _ _ _ _ _ _ _ _ Hns) in Hrun2.
  destruct Hrun2 as (nd & calls & Hstep & -> & ->).
  unfold step in Hstep. rewrite lookup_empty in Hstep.
  apply static_first_step_ok in Hstep.
  destruct Hstep as (tgt_len & bsz & e & qw & kw & vw & qb & kb & vb & k1' & v1' & k2' & v2'
                     & sk' & sv' & _ & _ & _ & _ & _ & _ & _ & _ & -> & ->).
  split.
  - simpl. rewrite <- app_assoc. reflexivity.
  - exists sk', sv'. apply lookup_new_state.
Qed.

End Threading.

(** ** Unpickling and re-initialisation *)



Section ResetFacts.
Context {T : Type} `{Scalar T}.

Lemma xavier_ok draw (t : option (tensor T)) t' :
  xavier_ draw t = Ok t' -> exists t0, t = Some t0 /\ shape t' = shape t0.
Proof.
  unfold xavier_. intros Hx. destruct t as [t0|]; [|discriminate]. simpl in Hx.
  destruct (fans (shape t0)) as [[fi fo]|]; [|discriminate]. simpl in Hx.
  destruct (decide (fi + fo = 0)); [discriminate|]. injection Hx as <-. eauto.
Qed.

Lemma constant_0_ok (t : option (tensor T)) t' :
  constant_0 t = Ok t' ->
  exists t0, t = Some t0 /\ shape t' = shape t0 /\ Forall (fun x => x = s_zero) (data t').
Proof.
  unfold constant_0. destruct t as [t0|]; [|discriminate]. simpl.
  intros [= <-]. exists t0. split; [reflexivity|]. split; [reflexivity|].
  unfold torch_zeros, build. simpl. apply Forall_forall. intros x Hx.
  apply list_elem_of_In, in_map_iff in Hx. destruct Hx as (o & <- & _). reflexivity.
Qed.

(** X14. Re-initialisation changes values only.  When
    [_reset_parameters] succeeds, the configuration and the shape of every
    parameter are as before, a parameter that was absent stays absent, and
    if the module has an input bias, the input bias and the output bias are
    zero everywhere. *)
Theorem reset_parameters_keeps_shapes (rng : string -> list nat -> T)
    (self self' : MultiheadAttention T) :
  _reset_parameters rng self = Ok self' ->
  (embed_dim self', num_heads self', head_dim self', kdim self', vdim self',
   _qkv_same_embed_dim self', add_zero_attn self', training self')
  = (embed_dim self, num_heads self, head_dim self, kdim self, vdim self,
     _qkv_same_embed_dim self, add_zero_attn self, training self) /\
  dropout self' = dropout self /\ scaling self' = scaling self /\
  shape <$> in_proj_weight self' = shape <$> in_proj_weight self /\
  shape <$> q_proj_weight self' = shape <$> q_proj_weight self /\
  shape <$> k_proj_weight self' = shape <$> k_proj_weight self /\
  shape <$> v_proj_weight self' = shape <$> v_proj_weight self /\
  shape (out_proj_weight self') = shape (out_proj_weight self) /\
  shape <$> in_proj_bias self' = shape <$> in_proj_bias self /\
  shape <$> out_proj_bias self' = shape <$> out_proj_bias self /\
  shape <$> bias_k self' = shape <$> bias_k self /\
  shape <$> bias_v self' = shape <$> bias_v self /\
  (forall b, in_proj_bias self' = Some b ->
     Forall (fun x => x = s_zero) (data b) /\
     exists ob, out_proj_bias self' = Some ob /\ Forall (fun x => x = s_zero) (data ob)).
Proof.
  unfold _reset_parameters. intros Hr.
  repeat result_inv1.
  all: repeat match goal with
       | Hx : xavier_ _ _ = Ok _ |- _ =>
           apply xavier_ok in Hx; destruct Hx as (? & Hx & ?)
       | Hc : constant_0 _ = Ok _ |- _ =>
           apply constant_0_ok in Hc; destruct Hc as (? & Hc & ? & ?)
       end.
  all: simplify_eq; simpl.
  all: repeat match goal with
       | Hq : ?l = Some _ |- context [?l] => rewrite Hq
       | Hq : ?l = None |- context [?l] => rewrite Hq
       | Hq : ?l = true |- context [?l] => rewrite Hq
       | Hq : ?l = false |- context [?l] => rewrite Hq
       end.
  all: simpl.
  all: repeat split; try congruence; try (f_equal; congruence).
  all: try (intros b [= <-]; split; [assumption|eauto]).
  all: try (intros b Hb; discriminate).
  all: eexists; split; [reflexivity|assumption].
Qed.

End ResetFacts.

(** ** The constructed module *)

Section Constructed.
Context {T : Type} `{Scalar T}.

Lemma xavier_build draw sh :
  (exists out inn rest, sh = out :: inn :: rest /\ 0 < (inn + out) * numel rest) ->
  xavier_ draw (Some (build sh draw)) = Ok (build sh draw : tensor T).
Proof.
  intros (out & inn & rest & -> & Hpos). unfold xavier_. simpl.
  destruct (decide (inn * numel rest + out * numel rest = 0)); [lia|reflexivity].
Qed.

(** X15. What the constructor builds.  After a successful construction
    [head_dim * num_heads = embed_dim] with a positive [embed_dim], the
    packed weights have shape (3 * embed_dim, embed_dim) and the output
    weights (embed_dim, embed_dim), the separate weights are absent, the
    biases are zero tensors or absent as [bias] says, [bias_k] and [bias_v]
    have shape (1, 1, embed_dim) or are absent as [add_bias_kv] says, the
    module is in training mode, and running [_reset_parameters] with the
    same draws gives the module back. *)
Theorem constructed_module rng e n p bias akv azn kd vd (self : MultiheadAttention T) :
  __init__ rng e n p bias akv azn kd vd = Ok self ->
  (head_dim self * num_heads self)%Z = embed_dim self /\ (0 < embed_dim self)%Z /\
  embed_dim self = e /\ num_heads self = n /\
  _qkv_same_embed_dim self = true /\ training self = true /\
  shape <$> in_proj_weight self = Some [3 * Z.to_nat e; Z.to_nat e] /\
  shape (out_proj_weight self) = [Z.to_nat e; Z.to_nat e] /\
  (q_proj_weight self, k_proj_weight self, v_proj_weight self) = (None, None, None) /\
  in_proj_bias self = (if bias then Some (torch_zeros [3 * Z.to_nat e]) else None) /\
  out_proj_bias self = (if bias then Some (torch_zeros [Z.to_nat e]) else None) /\
  shape <$> bias_k self = (if akv then Some [1; 1; Z.to_nat e] else None) /\
  shape <$> bias_v self = (if akv then Some [1; 1; Z.to_nat e] else None) /\
  _reset_parameters rng self = Ok self.
Proof.
  intros Hi. apply init_ok_fields in Hi.
  destruct Hi as (Hemb & Hnum & Hmul & Hpos & Hhd & Hkd & Hvd & Hdrop & Hsame & Hazn & Htr
                  & Hqw & Hkw & Hvw & Hinw & Hinb & How & Hob & Hbk & Hbv).
  assert (H3 : Z.to_nat (3 * e) = 3 * Z.to_nat e) by lia.
  rewrite H3 in *.
  repeat split.
  - rewrite Hnum. exact (eq_trans Hmul (eq_sym Hemb)).
  - lia.
  - exact Hemb.
  - exact Hnum.
  - exact Hsame.
  - exact Htr.
  - rewrite Hinw. reflexivity.
  - rewrite How. reflexivity.
  - congruence.
  - exact Hinb.
  - exact Hob.
  - rewrite Hbk. destruct akv; reflexivity.
  - rewrite Hbv. destruct akv; reflexivity.
  - unfold _reset_parameters. rewrite Hsame, Hinw, How, Hinb, Hob, Hbk, Hbv.
    rewrite !xavier_build by (do 3 eexists; split; [reflexivity|simpl; lia]).
    simpl.
    destruct self; simpl in *; subst.
    destruct bias, akv; simpl;
      rewrite ?xavier_build by (do 3 eexists; split; [reflexivity|simpl; lia]);
      simpl; reflexivity.
Qed.

End Constructed.

(** ** The earlier incremental path *)

Section LegacyFacts.
Context {T : Type} `{Scalar T}.

Lemma MX_bind_ok {A B} (f : A -> MX T B) (c : MX T A) st st' b :
  MX_bind f c st = (st', XOk b) ->
  exists a st1, c st = (st1, XOk a) /\ f a st1 = (st', XOk b).
Proof.
  unfold MX_bind. destruct (c st) as [st1 [a|e|k]]; intros Hb; [eauto|discriminate..].
Qed.

Lemma lift_M_ok {A} (c : M T A) st st' a :
  lift_M c st = (st', XOk a) -> c st = (st', Ok a).
Proof.
  unfold lift_M. destruct (c st) as [s [x|e]]; intros [= <- <-]; reflexivity.
Qed.

Lemma forward_none_store (self : MultiheadAttention T) noise q k v kpm am skv st :
  (forward self noise q k v kpm am skv None st).1 = st.
Proof.
  unfold forward. unfold_monad. unfold M_bind, pure.
  destruct (negb (_qkv_same_embed_dim self));
    match goal with |- context [F_multi_head_attention_forward ?a1 ?a2 ?a3 ?a4 ?a5 ?a6 ?a7
                                  ?a8 ?a9 ?a10 ?a11 ?a12 ?a13 ?a14 ?a15 ?a16 ?a17 ?a18 ?a19
                                  ?a20 ?a21] =>
      destruct (F_multi_head_attention_forward a1 a2 a3 a4 a5 a6 a7 a8 a9 a10 a11 a12 a13
                  a14 a15 a16 a17 a18 a19 a20 a21) as [[a w]|e]
    end; reflexivity.
Qed.

Lemma dict_getitem_ok (d : option ref) k (st st' : store T) v :
  dict_getitem d k st = (st', XOk v) ->
  st' = st /\ exists r m, d = Some r /\ objects st !! r = Some m /\ m !! k = Some v.
Proof.
  unfold dict_getitem, deref. destruct d as [r|]; [|discriminate].
  destruct (objects st !! r) as [m|] eqn:Hm; [|discriminate].
  destruct (m !! k) as [x|] eqn:Hx; [|discriminate]. intros [= <- <-]. eauto 10.
Qed.

Lemma dict_contains_ok (d : option ref) k (st st' : store T) b :
  dict_contains d k st = (st', XOk b) ->
  st' = st /\ exists r m, d = Some r /\ objects st !! r = Some m /\
                          b = bool_decide (is_Some (m !! k)).
Proof.
  unfold dict_contains, deref. destruct d as [r|]; [|discriminate].
  destruct (objects st !! r) as [m|] eqn:Hm; [|discriminate].
  intros [= <- <-]. eauto 10.
Qed.

End LegacyFacts.

Ltac mx_inv1 :=
  match goal with
  | Hb : MX_bind _ _ _ = (_, XOk _) |- _ =>
      apply MX_bind_ok in Hb; destruct Hb as (? & ? & ? & Hb)
  | Hb : lift_M _ _ = (_, XOk _) |- _ => apply lift_M_ok in Hb
  | Hb : MX_ret _ _ = (_, XOk _) |- _ =>
      unfold MX_ret in Hb; injection Hb; clear Hb; intros; subst
  | Hb : dict_getitem _ _ _ = (_, XOk _) |- _ =>
      apply dict_getitem_ok in Hb; destruct Hb as (-> & ? & ? & ? & ? & ?)
  | Hb : dict_contains _ _ _ = (_, XOk _) |- _ =>
      apply dict_contains_ok in Hb; destruct Hb as (-> & ? & ? & ? & ? & ->)
  | Hb : (match ?x with _ => _ end) _ = (_, XOk _) |- _ => destruct x eqn:?
  | _ => monad_inv1
  end.

Section LegacyTheorems.
Context {T : Type} `{Scalar T}.

(** X16. The earlier path in static mode caches nothing: it leaves the
    store as it is, and when it returns it hands back [prev_state] itself
    with the results of the full non-incremental forward. *)
Theorem legacy_static_path_caches_nothing (self : MultiheadAttention T) noise
    q k v kpm am prev st :
  let o := _recurrent_forwardxx self noise q k v kpm am true prev st in
  o.1 = st /\
  forall a w s, o.2 = XOk (a, w, s) ->
    s = prev /\ (forward self noise q k v kpm am true None st).2 = Ok (Plain a w).
Proof.
  cbv zeta. unfold _recurrent_forwardxx. unfold mbind, MX_mbind, mret, MX_mret.
  unfold MX_bind, lift_M, MX_ret, pure.
  pose proof (forward_none_store self noise q k v kpm am true st) as Hst.
  destruct (forward self noise q k v kpm am true None st) as [s [[a w|a w r]|e]];
    simpl in *; subst s; (split; [reflexivity|]); intros a' w' s'; try discriminate.
  intros [= <- <- <-]. auto.
Qed.

End LegacyTheorems.

Lemma lookup_snoc {A} (l : list A) x : (l ++ [x]) !! length l = Some x.
Proof. rewrite lookup_app_r by lia. rewrite Nat.sub_diag. reflexivity. Qed.

Lemma insert_snoc {A} (l : list A) x y : <[length l := y]> (l ++ [x]) = l ++ [y].
Proof. rewrite insert_app_r_alt by lia. rewrite Nat.sub_diag. reflexivity. Qed.

Ltac norm_store :=
  repeat (cbn [objects linear_calls] in *;
          match goal with
          | Hl : (?l ++ [_]) !! length ?l = Some _ |- _ =>
              rewrite lookup_snoc in Hl; injection Hl; clear Hl; intros; subst
          | Hl : context [<[length ?l := _]> (?l ++ [_])] |- _ => rewrite insert_snoc in Hl
          | |- context [<[length ?l := _]> (?l ++ [_])] => rewrite insert_snoc
          end).

Section LegacyGrowing.
Context {T : Type} `{Scalar T}.

Lemma transpose01_shape (t t' : tensor T) a b c :
  shape t = [a; b; c] -> transpose t 0 1 = Ok t' -> shape t' = [b; a; c].
Proof.
  intros Hs Ht. apply transpose_ok in Ht. destruct Ht as [-> _]. rewrite Hs. reflexivity.
Qed.

Lemma cat0_shape (x y z : tensor T) a b c a' :
  shape x = [a; b; c] -> shape y = a' :: b :: c :: [] ->
  torch_cat [x; y] 0 = Ok z -> shape z = [a + a'; b; c].
Proof.
  intros Hx Hy Hc. apply torch_cat2_ok in Hc. destruct Hc as (_ & _ & -> & _).
  unfold dim_size. rewrite Hx, Hy. reflexivity.
Qed.

(** X17. The earlier path in growing mode caches the raw key, batch
    first.  A call on a state that caches [L] positions, shape (bsz, L, E),
    with a key of [S] positions, shape (S, bsz, E), leaves that state
    untouched and returns a new state whose [prev_key] has shape
    (bsz, L + S, E); on a state without [prev_key] the shape is
    (bsz, S, E). *)
Theorem legacy_growing_path_extends_history (self : MultiheadAttention T) noise
    q k v kpm am r st d st' a w s S B E L :
  objects st !! r = Some d ->
  shape k = [S; B; E] ->
  match d !! "prev_key" with
  | Some pk => shape pk = [B; L; E]
  | None => L = 0
  end ->
  _recurrent_forwardxx self noise q k v kpm am false (Some r) st = (st', XOk (a, w, s)) ->
  objects st' !! r = Some d /\ s = Some (length (objects st)) /\
  exists nd nk, objects st' !! length (objects st) = Some nd /\
                nd !! "prev_key" = Some nk /\ shape nk = [B; L + S; E] /\
                is_Some (nd !! "prev_value").
Proof.
  intros Hd Hk Hprev Hrun.
  assert (Hd' : forall x, (objects st ++ [x]) !! r = Some d)
    by (intros x; apply lookup_app_l_Some; exact Hd).
  unfold _recurrent_forwardxx in Hrun. unfold mbind, MX_mbind, mret, MX_mret in Hrun.
  repeat mx_inv1.
  all: norm_store.
  all: simplify_eq.
  all: repeat match goal with
       | Hl : (_ ++ [_]) !! _ = Some _ |- _ =>
           rewrite Hd' in Hl; injection Hl; clear Hl; intros; subst
       end.
  all: match goal with
       | Hf : forward ?s1 ?n ?a1 ?a2 ?a3 ?a4 ?a5 ?a6 None ?s = (?s', _) |- _ =>
           let Hs := fresh in
           pose proof (forward_none_store s1 n a1 a2 a3 a4 a5 a6 s) as Hs;
           rewrite Hf in Hs; simpl in Hs; subst s'
       end.
  all: cbn [objects].
  all: split; [apply Hd'|]; split; [reflexivity|].
  all: eexists _, _; split; [apply lookup_snoc|].
  all: repeat match goal with
       | Hb : result_bind _ _ _ _ = Ok _ |- _ =>
           apply result_bind_ok in Hb; destruct Hb as (? & ? & Hb)
       end.
  all: rewrite ?lookup_insert_ne by done.
  all: try (rewrite lookup_insert_eq).
  all: (split; [reflexivity|]; split; [|eauto]).
  all: match goal with
       | Hb : bool_decide (is_Some (?m !! "prev_key")) = true |- _ =>
           apply bool_decide_eq_true in Hb; destruct Hb as [pk Hpk];
           rewrite Hpk in Hprev; simplify_eq;
           eapply transpose01_shape; [|eassumption];
           eapply cat0_shape; [|exact Hk|eassumption];
           eapply transpose01_shape; eassumption
       | Hb : bool_decide (is_Some (?m !! "prev_key")) = false |- _ =>
           apply bool_decide_eq_false in Hb;
           destruct (m !! "prev_key") as [pk|] eqn:Hpk; [exfalso; apply Hb; eauto|];
           subst L; eapply transpose01_shape; eassumption
       end.
Qed.

End LegacyGrowing.

(** ** The weights returned *)

Section Weights.
Context {T : Type} `{Scalar T}.


End Weights.

Section WeightsShape.
Context {T : Type} `{Scalar T}.

Lemma bmm_ok (a b c : tensor T) :
  bmm a b = Ok c ->
  exists n m p q, shape a = [n; m; p] /\ shape b = [n; p; q] /\ shape c = [n; m; q].
Proof.
  unfold bmm.
  destruct (shape a) as [|n [|m [|p [|]]]]; try discriminate.
  destruct (shape b) as [|n' [|p' [|q [|]]]]; try discriminate.
  destruct (decide _) as [[-> ->]|]; [|discriminate].
  intros [= <-]. exists n', m, p', q. auto.
Qed.

Lemma F_dropout_shape noise (x : tensor T) p tr y :
  F_dropout noise x p tr = Ok y -> shape y = shape x.
Proof.
  unfold F_dropout. destruct (s_is_prob p); [|discriminate].
  destruct (tr && s_truthy p); intros [= <-]; reflexivity.
Qed.

Lemma attention_core_tail (self : MultiheadAttention T) noise tgt_len bsz src_len
      q k v am pad attn w mask :
  attention_core self noise tgt_len bsz src_len q k v am pad = Ok (attn, w, mask) ->
  exists probs a a' x,
    F_dropout noise (softmax_last w) (dropout self) (training self) = Ok probs /\
    bmm probs v = Ok a /\ transpose a 0 1 = Ok a' /\
    view (contiguous a') [zdim tgt_len; zdim bsz; embed_dim self] = Ok x.
Proof.
  unfold attention_core. intros Hc. repeat result_inv1.
  all: eauto 10.
Qed.

Lemma history_shape (self : MultiheadAttention T) bsz E S ek Lp
      (x w b x1 x2 x3 nx : tensor T) (prev : option (tensor T)) ein :
  shape x = [S; bsz; ek] ->
  shape w = [E; ein] ->
  NH self * HD self = E ->
  F_linear x w (Some b) = Ok x1 ->
  split_heads self bsz x1 = Ok x2 ->
  extend_history self bsz prev x2 = Ok x3 ->
  as_cache self bsz x3 = Ok nx ->
  match prev with
  | Some p => shape p = [bsz; NH self; Lp; HD self]
  | None => Lp = 0
  end ->
  shape x3 = [bsz * NH self; Lp + S; HD self].
Proof.
  intros Hx Hw HE Hlin Hsplit Hext Hcache Hprev.
  apply F_linear_ok in Hlin. destruct Hlin as (out & inn & Hw' & _ & Hx1 & _).
  rewrite Hw in Hw'. injection Hw' as <- <-.
  rewrite Hx in Hx1. simpl in Hx1.
  apply split_heads_ok in Hsplit. destruct Hsplit as (_ & _ & Hp & _ & Hx2 & _).
  apply as_cache_ok in Hcache. destruct Hcache as (Hn & _ & Hp' & _ & _ & Hnx).
  pose proof (BH_eq self bsz Hn) as HBH.
  assert (HL : numel (shape x1) / (BH self bsz * HD self) = S).
  { rewrite Hx1. simpl. rewrite HBH.
    replace (S * (bsz * (E * 1))) with (S * (bsz * NH self * HD self)) by nia.
    apply Nat.div_mul. lia. }
  rewrite HL in Hx2. rewrite <- HBH.
  destruct prev as [p|]; simpl in Hext.
  - apply result_bind_ok in Hext. destruct Hext as (pv & Hpv & Hcat).
    apply of_cache_ok in Hpv. destruct Hpv as (_ & _ & _ & Hpsh).
    apply torch_cat2_ok in Hcat. destruct Hcat as (_ & _ & Hc & _).
    rewrite Hc. unfold dim_size. rewrite Hpsh, Hx2. simpl.
    rewrite Hprev. simpl. rewrite HBH.
    replace (bsz * (NH self * (Lp * (HD self * 1)))) with (Lp * (bsz * NH self * HD self)) by lia.
    rewrite Nat.div_mul by lia. reflexivity.
  - injection Hext as <-. subst Lp. exact Hx2.
Qed.

Lemma growing_step_core (self : MultiheadAttention T) noise q k v kpm am pk pv pm
      nd calls a w :
  growing_step self noise q k v kpm am pk pv pm = Ok (nd, calls, a, w) ->
  exists tgt_len bsz e qw kw vw qb kb vb v1 v2 v3 nv src_len q' k' mask,
    size3 q = Ok (tgt_len, bsz, e) /\
    packed_projections self = Ok (qw, kw, vw, (qb, kb, vb)) /\
    F_linear v vw (Some vb) = Ok v1 /\ split_heads self bsz v1 = Ok v2 /\
    match pk with
    | Some _ => exists pv', pv = Some pv' /\ extend_history self bsz pv v2 = Ok v3
    | None => v3 = v2
    end /\
    as_cache self bsz v3 = Ok nv /\
    attention_core self noise tgt_len bsz src_len q' k' v3 am (extend_mask pm kpm)
    = Ok (a, w, mask).
Proof.
  unfold growing_step. intros Hs.
  repeat result_inv1.
  all: repeat match goal with Hn : not_none _ = Ok _ |- _ => apply not_none_ok in Hn; subst end.
  all: do 17 eexists.
  all: repeat (split; [eassumption || reflexivity|]).
  all: try (split; [eauto|]).
  all: repeat (split; [eassumption || reflexivity|]).
  all: try eassumption.
Qed.

(** X19. Growing mode on a constructed module: the weights a call returns
    are kept per head and range over the whole history.  With a query of
    shape (tgt_len, bsz, _), a key of [S] positions and a state that caches
    [Lp] positions, they have shape (bsz * num_heads, tgt_len, Lp + S). *)
Theorem growing_call_weights_shape rng e n p bias akv azn kd vd
    (self : MultiheadAttention T) noise q k v kpm am prev st d st' a w ns
    tgt_len bsz eq S ek ev Lp :
  __init__ rng e n p bias akv azn kd vd = Ok self ->
  objects st !! prev = Some d ->
  shape q = [tgt_len; bsz; eq] -> shape k = [S; bsz; ek] -> shape v = [S; bsz; ev] ->
  match d !! "prev_key" with
  | Some pk => shape pk = [bsz; Z.to_nat n; Lp; Z.to_nat (e / n)] /\
               forall pv, d !! "prev_value" = Some pv ->
                          shape pv = [bsz; Z.to_nat n; Lp; Z.to_nat (e / n)]
  | None => Lp = 0
  end ->
  _recurrent_forward self noise q k v kpm am false prev st = (st', Ok (a, w, ns)) ->
  shape w = [bsz * Z.to_nat n; tgt_len; Lp + S].
Proof.
  intros Hi Hd Hq Hk Hv Hprev Hrun.
  apply (recurrent_forward_ok_iff _ _ _ _ _ _ _ _ _ _ _ _ _ _ _ Hd) in Hrun.
  destruct Hrun as (nd & calls & Hstep & -> & ->).
  unfold step in Hstep. apply growing_step_core in Hstep.
  destruct Hstep as (tgt' & bsz' & e' & qw & kw & vw & qb & kb & vb & v1 & v2 & v3 & nv
                     & src & q' & k' & mask & Hs3 & Hpk & Hv1 & Hv2 & Hv3 & Hnv & Hcore).
  unfold size3 in Hs3. rewrite Hq in Hs3. injection Hs3 as <- <- <-.
  pose proof (init_ok_fields _ _ _ _ _ _ _ _ _ _ Hi)
    as (Hemb & Hnum & _ & Hpos & Hhd & _ & _ & _ & _ & _ & _ & _ & _ & _ & Hw & _).
  destruct (as_cache_ok _ _ _ _ Hnv) as (Hn0 & Hh0 & Hpos3 & _).
  destruct (init_geometry _ _ _ _ _ _ _ _ _ _ Hi Hn0 Hh0) as [HE HEpos].
  destruct (packed_projections_shapes self _ (Z.to_nat e) (Z.to_nat e) qw kw vw qb kb vb Hw)
    as (_ & Hkw & Hvw); [simpl; f_equal; lia | exact HEpos | exact Hpk |].
  assert (HNH : Z.to_nat n = NH self) by (unfold NH; congruence).
  assert (HHD : Z.to_nat (e / n) = HD self) by (unfold HD; congruence).
  rewrite HNH, HHD in *.
  assert (Hv3sh : shape v3 = [bsz * NH self; Lp + S; HD self]).
  { destruct (d !! "prev_key") as [pk|] eqn:Hdpk.
    - destruct Hv3 as (pv' & Hpv' & Hv3).
      apply (history_shape self bsz (Z.to_nat e) S ev Lp v vw vb v1 v2 v3 nv
               (d !! "prev_value") (Z.to_nat e)); try assumption.
      rewrite Hpv'. apply (proj2 Hprev). exact Hpv'.
    - subst v3.
      apply (history_shape self bsz (Z.to_nat e) S ev Lp v vw vb v1 v2 v2 nv
               None (Z.to_nat e)); try assumption. reflexivity. }
  apply attention_core_tail in Hcore.
  destruct Hcore as (probs & a1 & a2 & x & Hdrop & Hbmm & Htr & Hview).
  apply F_dropout_shape in Hdrop. simpl in Hdrop.
  apply bmm_ok in Hbmm. destruct Hbmm as (n1 & m1 & p1 & q1 & Hps & Hvs & Ha1).
  rewrite Hv3sh in Hvs. injection Hvs as <- <- <-.
  apply transpose_ok in Htr. destruct Htr as [Ha2 _]. rewrite Ha1 in Ha2.
  apply view_ok in Hview. destruct Hview as (_ & Hnum' & _ & Hcase).
  unfold contiguous in *. rewrite Ha2 in Hnum'.
  rewrite Hemb in Hcase. unfold zdim in Hcase. simpl in Hcase.
  assert (Hx : shape x = [tgt_len; bsz; Z.to_nat e]).
  { destruct (decide (Z.of_nat tgt_len = (-1)%Z)); [lia|].
    destruct (decide (Z.of_nat bsz = (-1)%Z)); [lia|].
    destruct (decide (e = (-1)%Z)); [lia|].
    destruct Hcase as [[_ Hx]|[Hc _]]; [|simpl in Hc; lia].
    rewrite Hx, !Nat2Z.id. reflexivity. }
  rewrite Hx in Hnum'. cbn in Hnum'.
  rewrite <- Hdrop, Hps. f_equal. f_equal.
  rewrite <- HE in Hnum'. nia.
Qed.

End WeightsShape.

(** ** What the earlier path requires of the state *)

Section LegacyErrors.
Context {T : Type} `{Scalar T}.

(** X20. The earlier path in growing mode indexes the state it is given:
    on a state that holds [prev_key], a call never returns when
    [prev_value] is missing, nor when a [key_padding_mask] is passed and the
    state holds no [prev_key_padding_mask]. *)
Theorem legacy_growing_path_needs_full_state (self : MultiheadAttention T) noise
    q k v kpm am r st d :
  objects st !! r = Some d ->
  is_Some (d !! "prev_key") ->
  d !! "prev_value" = None \/ (is_Some kpm /\ d !! "prev_key_padding_mask" = None) ->
  is_xok (_recurrent_forwardxx self noise q k v kpm am false (Some r) st).2 = false.
Proof.
  intros Hd [pk Hpk] Hmiss.
  assert (Hd' : forall x, (objects st ++ [x]) !! r = Some d)
    by (intros x; apply lookup_app_l_Some; exact Hd).
  destruct (_recurrent_forwardxx self noise q k v kpm am false (Some r) st)
    as [st' [[[a w] s]|e|key]] eqn:Hrun; [exfalso|reflexivity..].
  unfold _recurrent_forwardxx in Hrun. unfold mbind, MX_mbind, mret, MX_mret in Hrun.
  repeat mx_inv1.
  all: norm_store.
  all: simplify_eq.
  all: repeat match goal with
       | Hl : (_ ++ [_]) !! _ = Some _ |- _ =>
           rewrite Hd' in Hl; injection Hl; clear Hl; intros; subst
       end.
  all: try (destruct Hmiss as [Hm|[[m Hm] Hm']]; congruence).
  all: match goal with
       | Hb : bool_decide _ = false |- _ =>
           apply bool_decide_eq_false in Hb; apply Hb; eauto
       end.
Qed.

End LegacyErrors.

Section LegacyKeyError.
Context {T : Type} `{Scalar T}.

Lemma transpose01_run (t : tensor T) a b c :
  shape t = [a; b; c] -> exists t', transpose t 0 1 = Ok t' /\ shape t' = [b; a; c].
Proof.
  intros Hs. unfold transpose. rewrite Hs. simpl.
  destruct (decide (0 < 3 ∧ 1 < 3)) as [_|Hn]; [|exfalso; apply Hn; lia].
  eexists. split; reflexivity.
Qed.

Lemma cat0_run (x y : tensor T) a a' b c :
  shape x = [a; b; c] -> shape y = [a'; b; c] -> exists z, torch_cat [x; y] 0 = Ok z.
Proof.
  intros Hx Hy. unfold torch_cat. cbn [forallb].
  rewrite Hx, Hy. cbn [length].
  destruct (decide (0 < 3)) as [_|Hn]; [|lia].
  rewrite !bool_decide_eq_true_2 by reflexivity. simpl. eauto.
Qed.

(** X21. On a state that holds a well-shaped [prev_key] and no
    [prev_value], the earlier path in growing mode concatenates the keys and
    then raises [KeyError] for ["prev_value"]. *)
Theorem legacy_growing_path_key_error (self : MultiheadAttention T) noise
    q k v kpm am r st d pk S B E L :
  objects st !! r = Some d ->
  d !! "prev_key" = Some pk -> d !! "prev_value" = None ->
  shape pk = [B; L; E] -> shape k = [S; B; E] ->
  (_recurrent_forwardxx self noise q k v kpm am false (Some r) st).2 = XKeyError "prev_value".
Proof.
  intros Hd Hpk Hpv Hs Hk.
  assert (Hd' : forall x, (objects st ++ [x]) !! r = Some d)
    by (intros x; apply lookup_app_l_Some; exact Hd).
  destruct (transpose01_run pk B L E Hs) as (pk' & Ht & Hs').
  destruct (cat0_run pk' k L S B E Hs' Hk) as (z & Hz).
  unfold _recurrent_forwardxx. unfold mbind, MX_mbind, mret, MX_mret.
  unfold MX_bind, lift_M, new_dict, dict_contains, dict_getitem, deref, pure.
  repeat (progress (cbn [objects linear_calls result_bind];
                    rewrite ?Hd', ?Hpk, ?Hpv, ?Ht, ?Hz, ?bool_decide_eq_true_2 by eauto)).
  reflexivity.
Qed.

End LegacyKeyError.

(** ** The theorems at sample inputs *)

Lemma static_cached_call_projects_query_only_witness :
  linear_calls Sample.static_run2.1
  = linear_calls Sample.static_run1.1 ++ [ProjQuery; ProjOut] /\
  objects Sample.static_run2.1 !! 2 = Some ∅.
Proof.
  apply (static_cached_call_projects_query_only Sample.attn42 Sample.no_noise
           Sample.x2 Sample.src2 Sample.src2 None None 1 Sample.static_run1.1
           (Sample.dict_at Sample.static_run1.1 1) Sample.static_run2.1
           (Sample.attn_of Sample.static_run2) (Sample.weights_of Sample.static_run2) 2).
  - vm_compute. reflexivity.
  - vm_compute. eauto.
  - vm_compute. reflexivity.
Defined.

Lemma static_first_call_fills_cache_witness :
  exists tgt_len bsz e qw kw vw qb kb vb k1 v1 k2 v2 sk sv,
    size3 Sample.x1 = Ok (tgt_len, bsz, e) /\
    packed_projections Sample.attn42 = Ok (qw, kw, vw, (qb, kb, vb)) /\
    F_linear Sample.src2 kw (Some kb) = Ok k1 /\ F_linear Sample.src2 vw (Some vb) = Ok v1 /\
    split_heads Sample.attn42 bsz k1 = Ok k2 /\ split_heads Sample.attn42 bsz v1 = Ok v2 /\
    as_cache Sample.attn42 bsz k2 = Ok sk /\ as_cache Sample.attn42 bsz v2 = Ok sv /\
    objects Sample.static_run1.1 !! 1
    = Some (<["static_value" := sv]> (<["static_key" := sk]> ∅)) /\
    linear_calls Sample.static_run1.1
    = linear_calls Sample.fresh_store ++ [ProjQuery; ProjKey; ProjValue; ProjOut].
Proof.
  apply (static_first_call_fills_cache Sample.attn42 Sample.no_noise
           Sample.x1 Sample.src2 Sample.src2 None None 0 Sample.fresh_store ∅
           Sample.static_run1.1
           (Sample.attn_of Sample.static_run1) (Sample.weights_of Sample.static_run1) 1).
  - reflexivity.
  - reflexivity.
  - vm_compute. reflexivity.
Defined.

Lemma static_cached_call_ignores_key_value_witness :
  let o1 := _recurrent_forward Sample.attn42 Sample.no_noise Sample.x2 Sample.src2 Sample.src2
              None None true 1 Sample.static_run1.1 in
  let o2 := _recurrent_forward Sample.attn42 Sample.no_noise Sample.x2 Sample.q2 Sample.x3
              None None true 1 Sample.static_run1.1 in
  o1.2 = o2.2 /\ (is_ok o1.2 = true -> o1 = o2).
Proof.
  apply (static_cached_call_ignores_key_value Sample.attn42 Sample.no_noise
           Sample.x2 Sample.src2 Sample.src2 Sample.q2 Sample.x3 None None 1
           Sample.static_run1.1 (Sample.dict_at Sample.static_run1.1 1)).
  - vm_compute. reflexivity.
  - vm_compute. eauto.
  - vm_compute. reflexivity.
Defined.

Lemma growing_call_returned_state_witness :
  exists nd, objects Sample.growing_run2.1 !! 2 = Some nd /\
    is_Some (nd !! "prev_key") /\ is_Some (nd !! "prev_value") /\
    nd !! "static_key" = None /\ nd !! "static_value" = None /\
    match Some Sample.pad1, Sample.dict_at Sample.growing_run1.1 1 !! "prev_key_padding_mask" with
    | None, _ => nd !! "prev_key_padding_mask" = None
    | Some m, None => nd !! "prev_key_padding_mask" = Some m
    | Some m, Some pm =>
        exists m', torch_cat [pm; m] 1 = Ok m' /\ nd !! "prev_key_padding_mask" = Some m'
    end.
Proof.
  apply (growing_call_returned_state Sample.attn42 Sample.no_noise
           Sample.x2 Sample.x2 Sample.x2 (Some Sample.pad1) None 1 Sample.growing_run1.1
           (Sample.dict_at Sample.growing_run1.1 1) Sample.growing_run2.1
           (Sample.attn_of Sample.growing_run2) (Sample.weights_of Sample.growing_run2) 2).
  - vm_compute. reflexivity.
  - vm_compute. reflexivity.
Defined.

Lemma growing_call_without_mask_ignores_history_witness :
  let o := _recurrent_forward Sample.attn42 Sample.no_noise Sample.x2 Sample.x2 Sample.x2
             None None false 0 Sample.two_states in
  let o' := _recurrent_forward Sample.attn42 Sample.no_noise Sample.x2 Sample.x2 Sample.x2
              None None false 1 Sample.two_states in
  o.2 = o'.2 /\ (is_ok o.2 = true -> o = o').
Proof.
  apply (growing_call_without_mask_ignores_history Sample.attn42 Sample.no_noise
           Sample.x2 Sample.x2 Sample.x2 None 0 1 Sample.two_states
           (Sample.dict_at Sample.growing_run1.1 1)).
  - reflexivity.
  - reflexivity.
Defined.

Lemma incremental_call_without_bias_raises_witness :
  (forward Sample.attn42_nobias Sample.no_noise Sample.x1 Sample.x1 Sample.x1 None None false
           (Some 0) Sample.fresh_store).2 = Raise TypeError.
Proof.
  apply (incremental_call_without_bias_raises Sample.rng 4 2 (Sample.Fin 0) false false
           None None Sample.attn42_nobias Sample.no_noise Sample.x1 Sample.x1 Sample.x1
           None None false 0 Sample.fresh_store ∅ 1 1 4 1 [1; 4]).
  - vm_compute. reflexivity.
  - reflexivity.
  - reflexivity.
  - reflexivity.
Defined.

Lemma half_cache_raises_witness :
  fails (forward Sample.attn42 Sample.no_noise Sample.x1 Sample.x1 Sample.x1 None None true
                 (Some 0) Sample.half_store).
Proof.
  apply (half_cache_raises Sample.attn42 Sample.no_noise Sample.x1 Sample.x1 Sample.x1
           None None true 0 Sample.half_store {["static_key" := Sample.x1]}).
  - reflexivity.
  - split; [vm_compute; eauto | vm_compute; reflexivity].
Defined.

Lemma separate_weights_not_implemented_witness :
  (forward Sample.attn42_separate Sample.no_noise Sample.x1 Sample.x1 Sample.x1 None None
           false (Some 0) Sample.fresh_store).2 = Raise NotImplementedError.
Proof.
  apply (separate_weights_not_implemented Sample.attn42_separate Sample.no_noise
           Sample.x1 Sample.x1 Sample.x1 None None false 0 Sample.fresh_store ∅ 1 1 4 1 [1; 4]).
  - reflexivity.
  - reflexivity.
  - reflexivity.
  - reflexivity.
Defined.

Lemma static_cache_reuse_matches_projection_witness :
  outputs (_recurrent_forward Sample.attn42 Sample.no_noise Sample.x2 Sample.q2 Sample.x3
             None None true 1 Sample.static_run1.1)
  = outputs (_recurrent_forward Sample.attn42 Sample.no_noise Sample.x2 Sample.src2 Sample.src2
               None None true 0 Sample.static_run1.1).
Proof.
  apply (static_cache_reuse_matches_projection Sample.attn42 Sample.no_noise Sample.no_noise
           Sample.x1 Sample.x2 Sample.src2 Sample.src2 Sample.q2 Sample.x3 None None None None
           0 Sample.fresh_store Sample.static_run1.1 ∅
           (Sample.attn_of Sample.static_run1) (Sample.weights_of Sample.static_run1) 1
           1 1 1 4 4).
  - reflexivity.
  - reflexivity.
  - vm_compute. reflexivity.
  - reflexivity.
  - reflexivity.
  - vm_compute. reflexivity.
Defined.

Lemma growing_call_extends_history_witness :
  exists nd nk nv, objects Sample.growing_run2.1 !! 2 = Some nd /\
    nd !! "prev_key" = Some nk /\ nd !! "prev_value" = Some nv /\
    shape nk = [1; Z.to_nat 2; 1 + 1; Z.to_nat (4 / 2)] /\
    shape nv = [1; Z.to_nat 2; 1 + 1; Z.to_nat (4 / 2)].
Proof.
  apply (growing_call_extends_history Sample.rng 4 2 (Sample.Fin 0) true false false None None
           Sample.attn42 Sample.no_noise Sample.x2 Sample.x2 Sample.x2 (Some Sample.pad1) None
           1 Sample.growing_run1.1 (Sample.dict_at Sample.growing_run1.1 1)
           Sample.growing_run2.1
           (Sample.attn_of Sample.growing_run2) (Sample.weights_of Sample.growing_run2) 2
           1 1 4 1 4 4 1).
  - vm_compute. reflexivity.
  - vm_compute. reflexivity.
  - reflexivity.
  - reflexivity.
  - reflexivity.
  - vm_compute. split; [reflexivity|]. intros pv Hpv. injection Hpv as <-. reflexivity.
  - vm_compute. reflexivity.
Defined.

Lemma incremental_output_shape_witness :
  1 <= 1 /\ shape (Sample.attn_of Sample.static_run1) = [1; 1; Z.to_nat 4].
Proof.
  apply (incremental_output_shape Sample.rng 4 2 (Sample.Fin 0) true false false None None
           Sample.attn42 Sample.no_noise Sample.x1 Sample.src2 Sample.src2 None None true
           0 Sample.fresh_store ∅ Sample.static_run1.1
           (Sample.attn_of Sample.static_run1) (Sample.weights_of Sample.static_run1) 1
           1 1 4).
  - vm_compute. reflexivity.
  - reflexivity.
  - reflexivity.
  - vm_compute. reflexivity.
Defined.

Lemma static_cache_not_carried_forward_witness :
  objects Sample.static_run2.1 !! 2 = Some ∅ /\
  linear_calls Sample.static_run3.1
  = linear_calls Sample.static_run1.1 ++ [ProjQuery; ProjOut]
    ++ [ProjQuery; ProjKey; ProjValue; ProjOut] /\
  exists sk sv,
    objects Sample.static_run3.1 !! 3
    = Some (<["static_value" := sv]> (<["static_key" := sk]> ∅)).
Proof.
  apply (static_cache_not_carried_forward Sample.attn42 Sample.no_noise Sample.no_noise
           Sample.x2 Sample.src2 Sample.src2 None None
           Sample.x3 Sample.src2 Sample.src2 None None
           1 Sample.static_run1.1 (Sample.dict_at Sample.static_run1.1 1)
           Sample.static_run2.1
           (Sample.attn_of Sample.static_run2) (Sample.weights_of Sample.static_run2) 2
           Sample.static_run3.1
           (Sample.attn_of Sample.static_run3) (Sample.weights_of Sample.static_run3) 3).
  - vm_compute. reflexivity.
  - vm_compute. eauto.
  - vm_compute. reflexivity.
  - vm_compute. reflexivity.
Defined.

Lemma reset_parameters_keeps_shapes_witness :
  (embed_dim Sample.attn42, num_heads Sample.attn42, head_dim Sample.attn42,
   kdim Sample.attn42, vdim Sample.attn42, _qkv_same_embed_dim Sample.attn42,
   add_zero_attn Sample.attn42, training Sample.attn42)
  = (embed_dim Sample.attn42, num_heads Sample.attn42, head_dim Sample.attn42,
     kdim Sample.attn42, vdim Sample.attn42, _qkv_same_embed_dim Sample.attn42,
     add_zero_attn Sample.attn42, training Sample.attn42) /\
  dropout Sample.attn42 = dropout Sample.attn42 /\
  scaling Sample.attn42 = scaling Sample.attn42 /\
  shape <$> in_proj_weight Sample.attn42 = shape <$> in_proj_weight Sample.attn42 /\
  shape <$> q_proj_weight Sample.attn42 = shape <$> q_proj_weight Sample.attn42 /\
  shape <$> k_proj_weight Sample.attn42 = shape <$> k_proj_weight Sample.attn42 /\
  shape <$> v_proj_weight Sample.attn42 = shape <$> v_proj_weight Sample.attn42 /\
  shape (out_proj_weight Sample.attn42) = shape (out_proj_weight Sample.attn42) /\
  shape <$> in_proj_bias Sample.attn42 = shape <$> in_proj_bias Sample.attn42 /\
  shape <$> out_proj_bias Sample.attn42 = shape <$> out_proj_bias Sample.attn42 /\
  shape <$> bias_k Sample.attn42 = shape <$> bias_k Sample.attn42 /\
  shape <$> bias_v Sample.attn42 = shape <$> bias_v Sample.attn42 /\
  (forall b, in_proj_bias Sample.attn42 = Some b ->
     Forall (fun x => x = s_zero) (data b) /\
     exists ob, out_proj_bias Sample.attn42 = Some ob /\
                Forall (fun x => x = s_zero) (data ob)).
Proof.
  apply (reset_parameters_keeps_shapes Sample.rng Sample.attn42 Sample.attn42).
  vm_compute. reflexivity.
Defined.

Lemma constructed_module_witness :
  (head_dim Sample.attn42 * num_heads Sample.attn42)%Z = embed_dim Sample.attn42 /\
  (0 < embed_dim Sample.attn42)%Z /\
  embed_dim Sample.attn42 = 4%Z /\ num_heads Sample.attn42 = 2%Z /\
  _qkv_same_embed_dim Sample.attn42 = true /\ training Sample.attn42 = true /\
  shape <$> in_proj_weight Sample.attn42 = Some [3 * Z.to_nat 4; Z.to_nat 4] /\
  shape (out_proj_weight Sample.attn42) = [Z.to_nat 4; Z.to_nat 4] /\
  (q_proj_weight Sample.attn42, k_proj_weight Sample.attn42, v_proj_weight Sample.attn42)
  = (None, None, None) /\
  in_proj_bias Sample.attn42 = (if true then Some (torch_zeros [3 * Z.to_nat 4]) else None) /\
  out_proj_bias Sample.attn42 = (if true then Some (torch_zeros [Z.to_nat 4]) else None) /\
  shape <$> bias_k Sample.attn42 = (if false then Some [1; 1; Z.to_nat 4] else None) /\
  shape <$> bias_v Sample.attn42 = (if false then Some [1; 1; Z.to_nat 4] else None) /\
  _reset_parameters Sample.rng Sample.attn42 = Ok Sample.attn42.
Proof.
  apply (constructed_module Sample.rng 4 2 (Sample.Fin 0) true false false None None
           Sample.attn42).
  vm_compute. reflexivity.
Defined.

Lemma legacy_static_path_caches_nothing_witness :
  let o := _recurrent_forwardxx Sample.attn42 Sample.no_noise Sample.x1 Sample.src2 Sample.src2
             None None true (Some 0) Sample.fresh_store in
  o.1 = Sample.fresh_store /\
  (Sample.xreturned o).2 = Some 0 /\
  (forward Sample.attn42 Sample.no_noise Sample.x1 Sample.src2 Sample.src2 None None true None
           Sample.fresh_store).2
  = Ok (Plain (Sample.xreturned o).1.1 (Sample.xreturned o).1.2).
Proof.
  cbv zeta.
  destruct (legacy_static_path_caches_nothing Sample.attn42 Sample.no_noise Sample.x1
              Sample.src2 Sample.src2 None None (Some 0) Sample.fresh_store) as [Hst Hres].
  split; [exact Hst|].
  apply (Hres (Sample.xreturned
                 (_recurrent_forwardxx Sample.attn42 Sample.no_noise Sample.x1 Sample.src2
                    Sample.src2 None None true (Some 0) Sample.fresh_store)).1.1
              (Sample.xreturned
                 (_recurrent_forwardxx Sample.attn42 Sample.no_noise Sample.x1 Sample.src2
                    Sample.src2 None None true (Some 0) Sample.fresh_store)).1.2
              (Some 0)).
  vm_compute. reflexivity.
Defined.

Lemma legacy_growing_path_extends_history_witness :
  objects Sample.legacy_run2.1 !! 1 = Some (Sample.dict_at Sample.legacy_run1.1 1) /\
  Some 2 = Some (length (objects Sample.legacy_run1.1)) /\
  exists nd nk, objects Sample.legacy_run2.1 !! length (objects Sample.legacy_run1.1) = Some nd /\
                nd !! "prev_key" = Some nk /\ shape nk = [1; 1 + 1; 4] /\
                is_Some (nd !! "prev_value").
Proof.
  apply (legacy_growing_path_extends_history Sample.attn42 Sample.no_noise
           Sample.x2 Sample.x2 Sample.x2 (Some Sample.pad1) None 1 Sample.legacy_run1.1
           (Sample.dict_at Sample.legacy_run1.1 1) Sample.legacy_run2.1
           (Sample.xreturned Sample.legacy_run2).1.1 (Sample.xreturned Sample.legacy_run2).1.2
           (Some 2) 1 1 4 1).
  - vm_compute. reflexivity.
  - reflexivity.
  - vm_compute. reflexivity.
  - vm_compute. reflexivity.
Defined.


Lemma growing_call_weights_shape_witness :
  shape (Sample.weights_of Sample.growing_run2) = [1 * Z.to_nat 2; 1; 1 + 1].
Proof.
  apply (growing_call_weights_shape Sample.rng 4 2 (Sample.Fin 0) true false false None None
           Sample.attn42 Sample.no_noise Sample.x2 Sample.x2 Sample.x2 (Some Sample.pad1) None
           1 Sample.growing_run1.1 (Sample.dict_at Sample.growing_run1.1 1)
           Sample.growing_run2.1
           (Sample.attn_of Sample.growing_run2) (Sample.weights_of Sample.growing_run2) 2
           1 1 4 1 4 4 1).
  - vm_compute. reflexivity.
  - vm_compute. reflexivity.
  - reflexivity.
  - reflexivity.
  - reflexivity.
  - vm_compute. split; [reflexivity|]. intros pv Hpv. injection Hpv as <-. reflexivity.
  - vm_compute. reflexivity.
Defined.

Lemma legacy_growing_path_needs_full_state_witness :
  is_xok (_recurrent_forwardxx Sample.attn42 Sample.no_noise Sample.x2 Sample.x2 Sample.x2
            None None false (Some 0) Sample.key_only_store).2 = false.
Proof.
  apply (legacy_growing_path_needs_full_state Sample.attn42 Sample.no_noise
           Sample.x2 Sample.x2 Sample.x2 None None 0 Sample.key_only_store
           {["prev_key" := Sample.x1]}).
  - reflexivity.
  - vm_compute. eauto.
  - left. vm_compute. reflexivity.
Defined.

Lemma legacy_growing_path_key_error_witness :
  (_recurrent_forwardxx Sample.attn42 Sample.no_noise Sample.x2 Sample.x2 Sample.x2
     None None false (Some 0) Sample.key_only_store).2 = XKeyError "prev_value".
Proof.
  apply (legacy_growing_path_key_error Sample.attn42 Sample.no_noise
           Sample.x2 Sample.x2 Sample.x2 None None 0 Sample.key_only_store
           {["prev_key" := Sample.x1]} Sample.x1 1 1 4 1).
  - reflexivity.
  - vm_compute. reflexivity.
  - vm_compute. reflexivity.
  - reflexivity.
  - reflexivity.
Defined.
